(** * Station / MODIS matchup: the window classifier and the joiner

    A shallow embedding of [src/lst_filler/data/matchup.py]:
    [get_matching_and_prev], [create_modis_selection] and
    [match_station_with_modis], together with the few xarray and pandas
    operations these functions are written with. *)

From Stdlib Require Import QArith Qabs Ascii.
From stdpp Require Import base list strings numbers sorting sets.

Local Open Scope Z_scope.
Local Open Scope nat_scope.

(** ** float64 values

    [time_diff_hrs] is a float64 [DataArray].  Absolute value and comparison
    are exact on floats, so a float is modelled by the rational it denotes,
    with the three special values written out. *)
Module Float.

Inductive float : Type :=
| NaN
| PInf
| NInf
| Fin (q : Q).

(** Python's [abs] on a float array. *)
Definition abs (x : float) : float :=
  match x with
  | NaN => NaN
  | PInf | NInf => PInf
  | Fin q => Fin (Qabs q)
  end.

(** [x <= bound] for a finite literal bound; every comparison with NaN is
    false. *)
Definition le (x : float) (bound : Q) : bool :=
  match x with
  | NaN => false
  | PInf => false
  | NInf => true
  | Fin q => Qle_bool q bound
  end.

End Float.
Export Float.

(** ** One-dimensional xarray operations *)
Module XArray.

(** [DataArray.shift(index=count, fill_value=fill)]: the data moves by
    [count] positions, the coordinates stay; what is shifted in is [fill].
    As in xarray's [_shift_one_dim]: the kept slice is [[:-count]] for a
    positive count and [[-count:]] for a negative one, and the filler has
    width [min |count| n]. *)
Definition shift {A} (count : Z) (fill : A) (l : list A) : list A :=
  let n := length l in
  match count with
  | Z0 => l
  | Zpos p => replicate (Nat.min (Pos.to_nat p) n) fill ++ take (n - Pos.to_nat p) l
  | Zneg p => drop (Pos.to_nat p) l ++ replicate (Nat.min (Pos.to_nat p) n) fill
  end.

(** [DataArray.where(cond)]: keep the value where [cond] holds, NaN
    elsewhere. *)
Definition where_ (data : list float) (cond : list bool) : list float :=
  zip_with (λ x (c : bool), if c then x else NaN) data cond.

(** Element-wise [&] of two boolean arrays on the same index. *)
Definition and_ (a b : list bool) : list bool := zip_with andb a b.

(** [abs(da) <= bound], element-wise. *)
Definition abs_le (bound : Q) (data : list float) : list bool :=
  (λ x, Float.le (Float.abs x) bound) <$> data.

End XArray.

Arguments XArray.shift : simpl never.
Arguments XArray.where_ : simpl never.
Arguments XArray.and_ : simpl never.
Arguments XArray.abs_le : simpl never.

(** ** The window classifier *)

Definition get_matching_and_prev (time_diff_hrs : list float)
  : list bool * list bool :=
  (* for matches, we use only data that falls within 1 hour (either side) *)
  let mask_match_t1 := XArray.abs_le 1 time_diff_hrs in
  (* for the previous time, shift the mask by -1 *)
  let mask_match_t0 := XArray.shift (-1) false mask_match_t1 in
  (* make sure that these values are within 4 hours *)
  let mask_match_t0_within_4hrs :=
    XArray.abs_le 4 (XArray.where_ time_diff_hrs mask_match_t0) in
  (* the match needs a previous time step too *)
  let mask_match_t1_with_prev :=
    XArray.shift 1 false mask_match_t0_within_4hrs in
  (* enforce both masks *)
  let mask_match_t1 := XArray.and_ mask_match_t1 mask_match_t1_with_prev in
  let mask_match_t0 := XArray.and_ mask_match_t0 mask_match_t0_within_4hrs in
  (mask_match_t1, mask_match_t0).

Arguments get_matching_and_prev : simpl never.

(** ** The five steps of the written algorithm, index by index

    This second definition follows the wording of the specification
    (section 4.3) and is compared with [get_matching_and_prev] below. *)
Module Steps.
Section steps.
Variable offset : list float.
Variables match_tolerance lookback_tolerance : Q.

Definition within (tol : Q) (i : nat) : bool :=
  match offset !! i with
  | Some x => Float.le (Float.abs x) tol
  | None => false
  end.

Definition current (i : nat) : bool := within match_tolerance i.

Definition anchor_candidate (i : nat) : bool :=
  if decide (S i < length offset) then current (S i) else false.

Definition anchor_within_bound (i : nat) : bool :=
  anchor_candidate i && within lookback_tolerance i.

Definition current_has_valid_anchor (i : nat) : bool :=
  match i with
  | O => false
  | S j => anchor_within_bound j
  end.

Definition is_current_match (i : nat) : bool :=
  current i && current_has_valid_anchor i.

Definition is_previous_anchor (i : nat) : bool :=
  anchor_candidate i && anchor_within_bound i.

Definition masks : list bool * list bool :=
  (is_current_match <$> seq 0 (length offset),
   is_previous_anchor <$> seq 0 (length offset)).
End steps.
End Steps.

(** The two masks are one mask, read one position apart. *)
Definition paired_mask (offset : list float) : list bool :=
  Steps.is_previous_anchor offset 1 4 <$> seq 0 (pred (length offset)).

(** ** Exceptions *)

Inductive exn : Type :=
| KeyError (key : string)
| ValueError (msg : string)
| IndexError (msg : string).

Inductive result (A : Type) : Type :=
| Ok (a : A)
| Raise (e : exn).
Arguments Ok {A} a.
Arguments Raise {A} e.

#[global] Instance result_ret : MRet result := λ A, Ok.
#[global] Instance result_bind : MBind result := λ A B f m,
  match m with
  | Ok a => f a
  | Raise e => Raise e
  end.

Definition is_ok {A} (m : result A) : Prop :=
  match m with Ok _ => True | Raise _ => False end.

(** ** The pandas operations of the joiner

    A frame is a list of column labels and a list of rows; a row carries its
    index label (the [datetime] of the observation, in nanoseconds) and its
    cells by column label.  The [station_name] level of the index is dropped
    on entry ([reset_index("station_name", drop=True)]), so the index of a
    station group is its [datetime] level. *)

Inductive cell : Type :=
| NA                    (* NaN, None and NaT *)
| Num (q : Q)
| Str (s : string)
| Time (t : Z).

Definition isna (c : cell) : bool :=
  match c with NA => true | _ => false end.

Record Row : Type := mkRow {
  label : Z;
  fields : list (string * cell)
}.

Record DataFrame : Type := mkFrame {
  columns : list string;
  rows : list Row
}.

(** The cell of a row under a column label. *)
Fixpoint field (name : string) (fs : list (string * cell)) : option cell :=
  match fs with
  | [] => None
  | (k, c) :: fs => if decide (k = name) then Some c else field name fs
  end.

Definition get (name : string) (r : Row) : cell :=
  default NA (field name (fields r)).

(** A point of the selection: the query time and the two coordinates. *)
Record Key : Type := mkKey { key_time : cell; key_y : cell; key_x : cell }.

Module Pandas.

Definition index (df : DataFrame) : list Z := label <$> rows df.

(** The name of the index: the level left once [station_name] is dropped. *)
Definition index_name : string := "datetime".

(** [df[name]]. *)
Definition getitem (name : string) (df : DataFrame) : result (list cell) :=
  if decide (name ∈ columns df) then Ok (get name <$> rows df)
  else Raise (KeyError name).

Definition set_field (name : string) (v : cell) (fs : list (string * cell))
  : list (string * cell) :=
  (λ kc, if decide (kc.1 = name) then (kc.1, v) else kc) <$> fs.

(** [df[name] = values]: an existing column is overwritten in place, a new
    one is appended. *)
Definition add_column (cols : list string) (name : string) : list string :=
  if decide (name ∈ cols) then cols else cols ++ [name].

Definition with_cell (cols : list string) (name : string) (r : Row) (v : cell)
  : Row :=
  mkRow (label r)
    (if decide (name ∈ cols) then set_field name v (fields r)
     else fields r ++ [(name, v)]).

Definition setitem (name : string) (values : list cell) (df : DataFrame)
  : result DataFrame :=
  if decide (length values = length (rows df)) then
    Ok (mkFrame (add_column (columns df) name)
          (zip_with (with_cell (columns df) name) (rows df) values))
  else Raise (ValueError "Length of values does not match length of index").

(** Selection by a boolean array. *)
Fixpoint mask_select {A} (mask : list bool) (l : list A) : list A :=
  match mask, l with
  | b :: mask, x :: l =>
      if b then x :: mask_select mask l else mask_select mask l
  | _, _ => []
  end.

(** [df.loc[mask]]. *)
Definition loc (mask : list bool) (df : DataFrame) : result DataFrame :=
  if decide (length mask = length (rows df)) then
    Ok (mkFrame (columns df) (mask_select mask (rows df)))
  else Raise (IndexError "Boolean index has wrong length").

(** [df.set_index(new_index)] with an index object: the labels are replaced
    position by position. *)
Definition set_index (labels : list Z) (df : DataFrame) : result DataFrame :=
  if decide (length labels = length (rows df)) then
    Ok (mkFrame (columns df)
          (zip_with (λ t r, mkRow t (fields r)) labels (rows df)))
  else Raise (ValueError "Length mismatch").

(** [df.reset_index()]: the index becomes the first column and the rows
    are numbered from 0. *)
Definition reset_index (df : DataFrame) : result DataFrame :=
  if decide (index_name ∈ columns df) then
    Raise (ValueError "cannot insert datetime, already exists")
  else
    Ok (mkFrame (index_name :: columns df)
          (imap (λ i r, mkRow (Z.of_nat i)
                          ((index_name, Time (label r)) :: fields r))
             (rows df))).

(** [left.join(right, rsuffix=...)]: a left join on the index labels.  A
    column label present on both sides gets the suffix on the right-hand
    side (the left suffix is empty); every left row is combined with all
    right rows of its label, in order, or with missing values when there is
    none. *)
Definition suffixed (overlap : list string) (rsuffix : string)
    (name : string) : string :=
  if decide (name ∈ overlap) then name +:+ rsuffix else name.

Definition joined_row (rename : string → string) (l r : Row) : Row :=
  mkRow (label l) (fields l ++ (prod_map rename id <$> fields r)).

Definition unmatched_row (rename : string → string) (right_columns : list string)
    (l : Row) : Row :=
  mkRow (label l) (fields l ++ ((λ c, (rename c, NA)) <$> right_columns)).

Definition join_rows (rename : string → string) (right_columns : list string)
    (left right : list Row) : list Row :=
  l ← left;
  match filter (λ r, label r = label l) right with
  | [] => [unmatched_row rename right_columns l]
  | ms => joined_row rename l <$> ms
  end.

Definition join (left right : DataFrame) (rsuffix : string)
  : result DataFrame :=
  let overlap := filter (λ c, c ∈ columns right) (columns left) in
  if decide (rsuffix = "" ∧ overlap ≠ []) then
    Raise (ValueError "columns overlap but no suffix specified")
  else
    let rename := suffixed (columns left) rsuffix in
    Ok (mkFrame (columns left ++ (rename <$> columns right))
          (join_rows rename (columns right) (rows left) (rows right))).

(** [df.dropna(subset=[name])]: a row stays when none of its cells under
    [name] is missing. *)
Definition notna_in (name : string) (r : Row) : bool :=
  forallb (λ kc, negb (bool_decide (kc.1 = name) && isna kc.2)) (fields r).

Definition dropna (name : string) (df : DataFrame) : result DataFrame :=
  if decide (name ∈ columns df) then
    Ok (mkFrame (columns df) (filter (λ r, notna_in name r = true) (rows df)))
  else Raise (KeyError name).

(** [df.drop(columns=labels)]. *)
Definition drop_fields (labels : list string) (r : Row) : Row :=
  mkRow (label r) (filter (λ kc, kc.1 ∉ labels) (fields r)).

Definition drop (labels : list string) (df : DataFrame) : result DataFrame :=
  match filter (λ l, l ∉ columns df) labels with
  | [] =>
      Ok (mkFrame (filter (λ c, c ∉ labels) (columns df))
            (drop_fields labels <$> rows df))
  | missing :: _ => Raise (KeyError missing)
  end.

(** *** Sorting a three-level index

    Numbers are ordered by value, strings and times among themselves, and a
    missing value comes last; pandas cannot order a column of mixed types,
    so the order between types is only there to make the comparison
    total. *)
Definition cell_rank (c : cell) : nat :=
  match c with Num _ => 0 | Str _ => 1 | Time _ => 2 | NA => 3 end.

Definition cell_compare (a b : cell) : comparison :=
  match a, b with
  | Num p, Num q => (p ?= q)%Q
  | Str s, Str t => String.compare s t
  | Time s, Time t => (s ?= t)%Z
  | _, _ => Nat.compare (cell_rank a) (cell_rank b)
  end.

Definition key_compare (a b : Key) : comparison :=
  match cell_compare (key_time a) (key_time b) with
  | Eq =>
      match cell_compare (key_y a) (key_y b) with
      | Eq => cell_compare (key_x a) (key_x b)
      | c => c
      end
  | c => c
  end.

Definition key_leb (a b : Key) : bool :=
  match key_compare a b with Gt => false | _ => true end.

(** A stable sort: [insert] puts a key before the first key that is not
    smaller. *)
Fixpoint insert (k : Key) (l : list Key) : list Key :=
  match l with
  | [] => [k]
  | h :: t => if key_leb k h then k :: l else h :: insert k t
  end.

Definition sort_index (l : list Key) : list Key := foldr insert [] l.

(** [df.set_index([time, y, x])] followed by reading the index: the three
    columns of every row, in row order. *)
Definition set_index_keys (time y x : string) (df : DataFrame)
  : result (list Key) :=
  match filter (λ l, l ∉ columns df) [time; y; x] with
  | [] => Ok ((λ r, mkKey (get time r) (get y r) (get x r)) <$> rows df)
  | missing :: _ => Raise (KeyError missing)
  end.

End Pandas.

(** ** The selector *)

(** The result stands for the [Dataset] over the dimension [index] with the
    variables [time], [y] and [x]: one key per position. *)
Definition create_modis_selection (df : DataFrame)
    (time y x : string) : result (list Key) :=
  frame ← Pandas.reset_index df;        (* move the index into the columns *)
  keys ← Pandas.set_index_keys time y x frame;
  mret (Pandas.sort_index keys).        (* sort by time, then y, then x *)

(** ** The matcher and the joiner *)

(** What a nearest-neighbour lookup gives for one query point: the value
    of the selected cell and the time coordinate of that cell. *)
Record GridSample : Type := mkSample {
  sample_value : cell;
  sample_time : Z
}.

Definition ns_per_hour : Z := 3600000000000.

(** [td.dt.total_seconds() / 3600] of a difference of two datetimes; a
    difference with NaT is NaN.  The quotient is the exact one: the rounding
    of the two float divisions is not modelled. *)
Definition total_hours (a b : cell) : float :=
  match a, b with
  | Time s, Time m => Fin ((s - m) # 3600000000000)
  | _, _ => NaN
  end.

Section matchup.
(** [da_modis.sel(time=..., y=..., x=..., method="nearest")] at one
    point of the selection; the lookup is point-wise along [index]. *)
Variable da_modis_sel : Key → GridSample.

(** Lines 63-64: the matched values and times become two columns of the
    station frame, position by position. *)
Definition attach_modis (matched_lst_points : list GridSample)
    (df_station : DataFrame) : result DataFrame :=
  df_station ←
    Pandas.setitem "modis_LST" (sample_value <$> matched_lst_points)
      df_station;
  Pandas.setitem "modis_time"
    (Time ∘ sample_time <$> matched_lst_points) df_station.

(** Lines 66-74: the times from modis and the station, and their
    difference in hours. *)
Definition time_difference (matched_lst_points : list GridSample)
    (df_station : DataFrame) : result (list float) :=
  time_station ← Pandas.reset_index df_station ≫= Pandas.getitem "datetime";
  let time_modis := Time ∘ sample_time <$> matched_lst_points in
  mret (zip_with total_hours time_station time_modis).

(** Lines 77-91: the rows of the two masks, joined on the index of the
    current rows. *)
Definition join_matches (mask_t1 mask_t0 : list bool)
    (df_station : DataFrame) : result DataFrame :=
  df_t1 ← Pandas.loc mask_t1 df_station;
  df_t0 ← Pandas.loc mask_t0 df_station ≫= Pandas.set_index (Pandas.index df_t1);
  joined ← Pandas.join df_t1 df_t0 "_tm1";
  kept ← Pandas.dropna "modis_LST" joined;
  Pandas.drop
    ["modis_time_tm1"; "modis_LST_tm1"; "latitude_tm1"; "longitude_tm1"]
    kept.

Definition match_station_with_modis (df_station : DataFrame)
  : result DataFrame :=
  (* [reset_index("station_name", drop=True)]: the index of [df_station]
     is its datetime level from here on *)
  (* create indexer for dataArray from dataframe *)
  station_coords ←
    create_modis_selection df_station "datetime" "latitude" "longitude";
  (* fetch the nearest points from the MODIS data *)
  let matched_lst_points := da_modis_sel <$> station_coords in
  df_station ← attach_modis matched_lst_points df_station;
  time_diff_hrs ← time_difference matched_lst_points df_station;
  let masks := get_matching_and_prev time_diff_hrs in
  join_matches masks.1 masks.2 df_station.

(** *** What the joiner is meant to produce

    These definitions follow the wording of the specification (sections 3
    and 4.4) and are compared with [match_station_with_modis] below. *)

(** The query key of an observation. *)
Definition key_of (r : Row) : Key :=
  mkKey (Time (label r)) (get "latitude" r) (get "longitude" r).

(** The grid sample of an observation and its time offset, query time
    minus matched time, in nanoseconds. *)
Definition grid_match (r : Row) : GridSample := da_modis_sel (key_of r).

Definition offset_ns (r : Row) : Z := (label r - sample_time (grid_match r))%Z.

(** An observation with its grid sample. *)
Definition annotated (r : Row) : Row :=
  mkRow (label r)
    (fields r ++
     [("modis_LST", sample_value (grid_match r));
      ("modis_time", Time (sample_time (grid_match r)))]).

(** The variable columns of the anchor row, suffixed. *)
Definition previous_fields (anchor : Row) : list (string * cell) :=
  prod_map (λ k, k +:+ "_tm1") id <$>
    filter (λ kc, kc.1 ∉ ["latitude"; "longitude"]) (fields anchor).

Definition paired_record (current anchor : Row) : Row :=
  mkRow (label current) (fields (annotated current) ++ previous_fields anchor).

(** The anchor policy and the drop rule for a row and its predecessor. *)
Definition is_pair (current anchor : Row) : Prop :=
  (Z.abs (offset_ns current) ≤ ns_per_hour)%Z
  ∧ (Z.abs (offset_ns anchor) ≤ 4 * ns_per_hour)%Z
  ∧ isna (sample_value (grid_match current)) = false.

Definition paired_columns (cols : list string) : list string :=
  cols ++ ["modis_LST"; "modis_time"] ++
  ((λ k, k +:+ "_tm1") <$> filter (λ k, k ∉ ["latitude"; "longitude"]) cols).

Definition paired_table (df : DataFrame) : DataFrame :=
  mkFrame (paired_columns (columns df))
    ((λ p, paired_record p.1 p.2) <$>
       filter (λ p, is_pair p.1 p.2) (zip (tail (rows df)) (rows df))).
End matchup.

(** ** Conditions on a station frame *)

(** Every row has a cell for every column, in column order. *)
Definition well_formed (df : DataFrame) : Prop :=
  Forall (λ r, (fst <$> fields r) = columns df) (rows df).

(** The frame has the two coordinate columns, and its index is not also a
    column. *)
Definition station_schema (df : DataFrame) : Prop :=
  "latitude" ∈ columns df ∧ "longitude" ∈ columns df
  ∧ "datetime" ∉ columns df.

(** No column of the station data carries a name that the matchup
    produces. *)
Definition generated_names : list string :=
  ["modis_LST"; "modis_time"; "modis_time_tm1"; "modis_LST_tm1";
   "latitude_tm1"; "longitude_tm1"].

Definition plain_columns (df : DataFrame) : Prop :=
  Forall (λ c, c ∉ generated_names) (columns df).

(** Timestamps strictly increasing, hence unique. *)
Definition strictly_increasing (df : DataFrame) : Prop :=
  StronglySorted Z.lt (Pandas.index df).

(** The row of the station frame after lines 63-64, for a grid sample
    [m] attached at its position. *)
Definition attach_row (cols : list string) (r : Row) (m : GridSample) : Row :=
  Pandas.with_cell (Pandas.add_column cols "modis_LST") "modis_time"
    (Pandas.with_cell cols "modis_LST" r (sample_value m))
    (Time (sample_time m)).

Definition attach_columns (cols : list string) : list string :=
  Pandas.add_column (Pandas.add_column cols "modis_LST") "modis_time".

(** The time offset of a row from a grid sample, in hours. *)
Definition offset_hours (r : Row) (m : GridSample) : float :=
  total_hours (Time (label r)) (Time (sample_time m)).

(** The columns removed at the end of the join, the renaming of the
    right-hand side, and the rows and columns of the joined frame, for the
    rows [L] selected as current and the rows [R] selected as previous. *)
Definition dropped_columns : list string :=
  ["modis_time_tm1"; "modis_LST_tm1"; "latitude_tm1"; "longitude_tm1"].

Definition tm1 (cols : list string) : string → string :=
  Pandas.suffixed cols "_tm1".

Definition relabel (L R : list Row) : list Row :=
  zip_with (λ t r, mkRow t (fields r)) (label <$> L) R.

Definition emitted_rows (cols : list string) (L R : list Row) : list Row :=
  Pandas.drop_fields dropped_columns <$>
    filter (λ r, Pandas.notna_in "modis_LST" r = true)
      (Pandas.join_rows (tm1 cols) cols L (relabel L R)).

Definition emitted_columns (cols : list string) : list string :=
  filter (λ c, c ∉ dropped_columns) (cols ++ (tm1 cols <$> cols)).

(** The two tolerance tests on a row and its predecessor, as the
    classifier applies them to the offsets of the two rows. *)
Definition pair_selected (da_modis_sel : Key → GridSample) (p : Row * Row)
  : bool :=
  Float.le (Float.abs (offset_hours p.1 (grid_match da_modis_sel p.1))) 1
  && Float.le (Float.abs (offset_hours p.2 (grid_match da_modis_sel p.2))) 4.

(** ** A station group and a grid for the examples

    A grid with two overpasses, at [T0] and [T0 + 3h], the first without a
    valid value at the station, and observations at [T0], [T0 + 1h] and
    [T0 + 3h]: the first two are nearest to the overpass at [T0], the third
    to the one at [T0 + 3h]. *)
Module Sample.

Definition hour : Z := ns_per_hour.

Definition station_columns : list string :=
  ["latitude"; "longitude"; "temperature"].

Definition observation (t : Z) (temperature : Q) : Row :=
  mkRow t [("latitude", Num 1); ("longitude", Num 2);
           ("temperature", Num temperature)].

(** The nearest entry of a time axis, the earliest one on a tie. *)
Fixpoint nearest (best : Z * cell) (axis : list (Z * cell)) (t : Z)
  : Z * cell :=
  match axis with
  | [] => best
  | c :: axis =>
      nearest (if decide (Z.abs (t - c.1) < Z.abs (t - best.1))%Z
               then c else best) axis t
  end.

Definition grid (k : Key) : GridSample :=
  match key_time k with
  | Time t =>
      let c := nearest (0%Z, NA) [((3 * hour)%Z, Num 300)] t in
      mkSample c.2 c.1
  | _ => mkSample NA 0
  end.

Definition group : DataFrame :=
  mkFrame station_columns
    [observation 0 10; observation hour 11; observation (3 * hour) 12].

(** The offsets of the three observations from their grid matches. *)
Definition offsets : list float := [Fin 0; Fin 1; Fin 0].

(** The same observations, the first two exchanged. *)
Definition unsorted_group : DataFrame :=
  mkFrame station_columns
    [observation hour 11; observation 0 10; observation (3 * hour) 12].

Definition single : DataFrame :=
  mkFrame station_columns [observation 0 10].

End Sample.

(** ** Excluding columns by name: [filter_dataframe]

    The pattern is the concatenation of one group per exclusion string:
    the anchor [^] followed by a negative look-ahead for [col] between two
    "any characters" ([.] starred), and [DataFrame.filter(regex=...)] keeps
    the columns in whose name [re.search] finds the pattern.  Each group
    holds at the start of the name exactly when [col] does not occur in the
    name after a run of characters other than the newline (which [.] does
    not match).  The exclusion strings are read as literal text, which they
    are when they hold no operator of the regular-expression syntax. *)

Definition newline : Ascii.ascii := "010"%char.

Fixpoint starts_with (prefix s : string) : bool :=
  match prefix, s with
  | EmptyString, _ => true
  | String a prefix, String b s => Ascii.eqb a b && starts_with prefix s
  | String _ _, EmptyString => false
  end.

(** What the look-ahead looks for: [col], literally, after any number of
    characters other than the newline. *)
Fixpoint occurs (col name : string) : bool :=
  starts_with col name
  || match name with
     | EmptyString => false
     | String c name => negb (Ascii.eqb c newline) && occurs col name
     end.

(** [re.search(pattern, name) is not None]. *)
Definition pattern_found (excl_cols_with : list string) (name : string) : bool :=
  forallb (λ col, negb (occurs col name)) excl_cols_with.

Definition filter_dataframe (df : DataFrame) (excl_cols_with : list string)
  : DataFrame :=
  mkFrame
    (filter (λ c, pattern_found excl_cols_with c = true) (columns df))
    ((λ r, mkRow (label r)
             (filter (λ kc, pattern_found excl_cols_with kc.1 = true) (fields r)))
       <$> rows df).

(** The order in which [sort_index] leaves the keys. *)
Definition key_le (a b : Key) : Prop := Pandas.key_leb a b = true.

(** [s.count(c)] for a one-character [c]. *)
Fixpoint count_char (c : Ascii.ascii) (s : string) : nat :=
  match s with
  | EmptyString => 0
  | String a s => (if Ascii.eqb a c then 1 else 0) + count_char c s
  end.

(** ** The satellite grid: [lst_filler/data/modis.py] *)
Module Modis.

(** An [assert] that fails, or one of the exceptions above. *)
Inductive error : Type :=
| AssertionError (msg : string)
| Exception (e : exn).

Definition slash : Ascii.ascii := "/"%char.

(** [s.split(c)] for a one-character separator: always at least one part. *)
Fixpoint split_char (c : Ascii.ascii) (s : string) : list string :=
  match s with
  | EmptyString => [EmptyString]
  | String a s =>
      if Ascii.eqb a c then EmptyString :: split_char c s
      else match split_char c s with
           | [] => [String a EmptyString]
           | part :: parts => String a part :: parts
           end
  end.

Section datetime_format.
(** [pd.to_datetime] on a string: whether it returns or raises. *)
Variable to_datetime : string → bool.

(** The argument is a string by its type, so the first assertion holds. *)
Definition check_planetary_computer_datetime_format (datetime : string)
  : error + unit :=
  let slash_count := count_char slash datetime in
  if decide (slash_count = 1) then
    match split_char slash datetime with
    | [t0; t1] =>
        if to_datetime t0 && to_datetime t1 then inr ()
        else inl (Exception (ValueError
               "datetime must be in the format 'YYYY-MM-DD/YYYY-MM-DD'"))
    | _ => inl (Exception (ValueError "not enough values to unpack"))
    end
  else inl (AssertionError "datetime must have exactly one slash").
End datetime_format.

(** *** View angles

    A stacked array has the dimensions (time, band, y, x).  A scene is one
    time step: its time coordinate and, for every band, the values of the
    pixels over y and x.  Sums, comparisons and absolute values are those
    of the reals that the floats denote; the rounding of [angle + offset]
    and of the ratio of the two counts is not modelled. *)
Record Scene : Type := mkScene {
  scene_time : Z;
  layers : list (string * list float)
}.

Record Stack : Type := mkStack {
  band : list string;
  scenes : list Scene
}.

Definition float_add (x : float) (c : Q) : float :=
  match x with
  | Fin q => Fin (q + c)
  | other => other
  end.

Definition float_gt (x : float) (bound : Q) : bool :=
  match x with
  | NaN => false
  | PInf => true
  | NInf => false
  | Fin q => negb (Qle_bool q bound)
  end.

Definition float_lt (x : float) (bound : Q) : bool :=
  match x with
  | NaN => false
  | PInf => false
  | NInf => true
  | Fin q => negb (Qle_bool bound q)
  end.

(** The pixels of a scene under a band label. *)
Fixpoint layer (name : string) (ls : list (string * list float)) : list float :=
  match ls with
  | [] => []
  | (k, px) :: ls => if decide (k = name) then px else layer name ls
  end.

(** [mask.sum(["x", "y"])] of a boolean array: the number of true pixels. *)
Definition count_true (mask : list bool) : nat :=
  length (filter (λ b, b = true) mask).

(** [bad / (bad + good)] of two integer counts: NaN for 0 / 0. *)
Definition ratio (bad good : nat) : float :=
  match bad + good with
  | O => NaN
  | S n => Fin (Z.of_nat bad # Pos.of_succ_nat n)
  end.

(** [drop_sel(band=name)] on one scene. *)
Definition drop_band (name : string) (s : Scene) : Scene :=
  mkScene (scene_time s) (filter (λ kl, kl.1 ≠ name) (layers s)).

(** The defaults of the source are the band ["Day_view_angl"], the offset
    -65, the threshold 40 and the ratio 0.1. *)
Definition mask_bad_view_angles (da : Stack) (angle_band_name : string)
    (zenith_angle_offset max_view_angle max_bad_angle_ratio : Q)
  : result Stack :=
  if decide (angle_band_name ∈ band da) then
    (* the zenith angle: the view angle plus the offset, in absolute value *)
    let zenith_angle (s : Scene) :=
      (λ a, Float.abs (float_add a zenith_angle_offset))
        <$> layer angle_band_name (layers s) in
    (* pixels above the threshold, and pixels at or below it *)
    let bad_angles (s : Scene) :=
      count_true ((λ z, float_gt z max_view_angle) <$> zenith_angle s) in
    let good_angles (s : Scene) :=
      count_true ((λ z, Float.le z max_view_angle) <$> zenith_angle s) in
    let bad_angles_ratio (s : Scene) := ratio (bad_angles s) (good_angles s) in
    let mask := (λ s, float_lt (bad_angles_ratio s) max_bad_angle_ratio)
                  <$> scenes da in
    (* the times with an acceptable ratio, without the angle band *)
    Ok (mkStack (filter (λ b, b ≠ angle_band_name) (band da))
          (drop_band angle_band_name <$> Pandas.mask_select mask (scenes da)))
  else Raise (KeyError angle_band_name).

End Modis.

(** * Properties *)

(** ** Lookup lemmas for the array operations *)
Section xarray_facts.
Context {A : Type}.
Implicit Types (l : list A) (fill : A).

Lemma length_shift count fill l :
  length (XArray.shift count fill l) = length l.
Proof.
  unfold XArray.shift.
  destruct count as [|p|p]; [done| |];
    rewrite length_app, length_replicate;
    [rewrite length_take | rewrite length_drop]; lia.
Qed.

Lemma lookup_shift_left fill l i :
  XArray.shift (-1) fill l !! i =
    if decide (S i < length l) then l !! S i
    else if decide (i < length l) then Some fill else None.
Proof.
  unfold XArray.shift. change (Pos.to_nat 1) with 1.
  destruct (decide (S i < length l)) as [Hlt|Hge].
  - rewrite lookup_app_l by (rewrite length_drop; lia).
    by rewrite lookup_drop.
  - rewrite lookup_app_r by (rewrite length_drop; lia).
    rewrite length_drop. case_decide.
    + apply lookup_replicate_2. lia.
    + apply lookup_replicate_None. lia.
Qed.

Lemma lookup_shift_right fill l i :
  XArray.shift 1 fill l !! i =
    match i with
    | O => if decide (0 < length l) then Some fill else None
    | S j => if decide (S j < length l) then l !! j else None
    end.
Proof.
  unfold XArray.shift. change (Pos.to_nat 1) with 1.
  destruct l as [|x l]; [by destruct i|].
  simpl length. replace (Nat.min 1 (S (length l))) with 1 by lia.
  destruct i as [|j]; simpl; [done|].
  replace (length l - 0) with (length l) by lia.
  case_decide.
  - apply lookup_take_lt. lia.
  - apply lookup_take_ge. lia.
Qed.
End xarray_facts.

Lemma lookup_abs_le bound data i :
  XArray.abs_le bound data !! i =
    (λ x, Float.le (Float.abs x) bound) <$> data !! i.
Proof. apply list_lookup_fmap. Qed.

Lemma length_abs_le bound data : length (XArray.abs_le bound data) = length data.
Proof. apply length_fmap. Qed.

(** ** The classifier, index by index *)
Section classifier_facts.
Variable offset : list float.

Let current := Steps.current offset 1.

Lemma lookup_current_mask i :
  XArray.abs_le 1 offset !! i =
    if decide (i < length offset) then Some (current i) else None.
Proof.
  rewrite lookup_abs_le. unfold current, Steps.current, Steps.within.
  case_decide as Hi.
  - apply lookup_lt_is_Some in Hi as [x ->]. done.
  - rewrite lookup_ge_None_2 by lia. done.
Qed.

Lemma lookup_candidate_mask i :
  XArray.shift (-1) false (XArray.abs_le 1 offset) !! i =
    if decide (i < length offset)
    then Some (Steps.anchor_candidate offset 1 i) else None.
Proof.
  rewrite lookup_shift_left, length_abs_le, lookup_current_mask.
  unfold Steps.anchor_candidate. fold current.
  repeat case_decide; done || lia.
Qed.

Lemma lookup_within_mask i :
  XArray.abs_le 4
    (XArray.where_ offset (XArray.shift (-1) false (XArray.abs_le 1 offset))) !! i =
    if decide (i < length offset)
    then Some (Steps.anchor_within_bound offset 1 4 i) else None.
Proof.
  rewrite lookup_abs_le. unfold XArray.where_.
  rewrite lookup_zip_with, lookup_candidate_mask.
  unfold Steps.anchor_within_bound, Steps.within.
  case_decide as Hi.
  - apply lookup_lt_is_Some in Hi as [x ->]. simpl.
    by destruct (Steps.anchor_candidate offset 1 i).
  - rewrite lookup_ge_None_2 by lia. done.
Qed.

Lemma length_where_candidate :
  length (XArray.where_ offset
            (XArray.shift (-1) false (XArray.abs_le 1 offset))) = length offset.
Proof.
  unfold XArray.where_.
  rewrite length_zip_with, length_shift, length_abs_le. lia.
Qed.

Lemma lookup_is_current_match i :
  (get_matching_and_prev offset).1 !! i =
    if decide (i < length offset)
    then Some (Steps.is_current_match offset 1 4 i) else None.
Proof.
  unfold get_matching_and_prev, XArray.and_. cbn [fst].
  rewrite lookup_zip_with, lookup_current_mask, lookup_shift_right.
  unfold Steps.is_current_match. fold current.
  destruct (decide (i < length offset)) as [Hi|Hi]; [|done]. simpl.
  destruct i as [|j]; simpl;
    rewrite length_abs_le, length_where_candidate.
  - case_decide; [|lia]. simpl. by rewrite andb_false_r.
  - case_decide; [|lia]. rewrite lookup_within_mask.
    case_decide; [done|lia].
Qed.

Lemma lookup_is_previous_anchor i :
  (get_matching_and_prev offset).2 !! i =
    if decide (i < length offset)
    then Some (Steps.is_previous_anchor offset 1 4 i) else None.
Proof.
  unfold get_matching_and_prev, XArray.and_. cbn [snd].
  rewrite lookup_zip_with, lookup_candidate_mask, lookup_within_mask.
  unfold Steps.is_previous_anchor. by case_decide.
Qed.

Lemma length_is_current_match :
  length (get_matching_and_prev offset).1 = length offset.
Proof.
  unfold get_matching_and_prev, XArray.and_, XArray.where_. cbn [fst].
  rewrite !length_zip_with, !length_shift, !length_abs_le,
    !length_zip_with, !length_shift, !length_abs_le. lia.
Qed.

Lemma length_is_previous_anchor :
  length (get_matching_and_prev offset).2 = length offset.
Proof.
  unfold get_matching_and_prev, XArray.and_, XArray.where_. cbn [snd].
  rewrite !length_zip_with, !length_shift, !length_abs_le,
    !length_zip_with, !length_shift, !length_abs_le. lia.
Qed.
End classifier_facts.

Lemma lookup_fmap_seq {B} (f : nat → B) n i :
  (f <$> seq 0 n) !! i = if decide (i < n) then Some (f i) else None.
Proof.
  rewrite list_lookup_fmap. case_decide.
  - by rewrite lookup_seq_lt.
  - by rewrite lookup_seq_ge by lia.
Qed.

(** C1: with the tolerances 1 and 4 of the source, [get_matching_and_prev]
    returns exactly the two masks of the five-step algorithm of the
    specification, and a finite offset passes a tolerance exactly when its
    absolute value is at most the tolerance (the boundary included). *)
Theorem get_matching_and_prev_five_steps (offset : list float) :
  get_matching_and_prev offset = Steps.masks offset 1 4
  ∧ (∀ i q tol, offset !! i = Some (Fin q) →
       Steps.within offset tol i = true ↔ (Qabs q <= tol)%Q).
Proof.
  split.
  - rewrite (surjective_pairing (get_matching_and_prev offset)).
    unfold Steps.masks. f_equal; apply list_eq; intros i;
      rewrite lookup_fmap_seq.
    + apply lookup_is_current_match.
    + apply lookup_is_previous_anchor.
  - intros i q tol Hi. unfold Steps.within. rewrite Hi. simpl.
    apply Qle_bool_iff.
Qed.

Lemma get_matching_and_prev_five_steps_witness :
  get_matching_and_prev [Fin 4; Fin 1] = ([false; true], [true; false])
  ∧ (Steps.within [Fin 4; Fin 1] 1 1 = true ↔ (Qabs 1 <= 1)%Q).
Proof.
  destruct (get_matching_and_prev_five_steps [Fin 4; Fin 1]) as [Hmasks Hle].
  split; [exact Hmasks|].
  apply (Hle 1 1%Q 1%Q). reflexivity.
Defined.

(** ** Selection by a mask *)
Section mask_select_facts.
Context {A B : Type}.
Implicit Types (mask : list bool) (l : list A).

Lemma mask_select_nil_r mask : Pandas.mask_select mask (@nil A) = [].
Proof. by destruct mask. Qed.

Lemma mask_select_fmap (f : A → B) mask l :
  Pandas.mask_select mask (f <$> l) = f <$> Pandas.mask_select mask l.
Proof.
  revert l. induction mask as [|b mask IH]; intros [|x l]; simpl; try done.
  destruct b; simpl; by rewrite IH.
Qed.

Lemma mask_select_zip mask l (k : list B) :
  Pandas.mask_select mask (zip l k) =
    zip (Pandas.mask_select mask l) (Pandas.mask_select mask k).
Proof.
  revert l k. induction mask as [|b mask IH]; intros [|x l] [|y k];
    simpl; try done.
  - destruct b; simpl; [done | apply eq_sym, zip_with_nil_r].
  - destruct b; simpl; by rewrite IH.
Qed.

Lemma mask_select_snoc_false mask l :
  length l ≤ S (length mask) →
  Pandas.mask_select (mask ++ [false]) l = Pandas.mask_select mask l.
Proof.
  revert l. induction mask as [|b mask IH]; intros [|x l] Hlen;
    simpl in *; try done.
  rewrite IH by lia. done.
Qed.

Lemma mask_select_sublist mask l : Pandas.mask_select mask l `sublist_of` l.
Proof.
  revert l. induction mask as [|b mask IH]; intros [|x l]; simpl;
    try apply sublist_nil_l.
  destruct b; [by apply sublist_skip | by apply sublist_cons].
Qed.

Lemma elem_of_mask_select mask l a : a ∈ Pandas.mask_select mask l → a ∈ l.
Proof. apply sublist_subseteq, mask_select_sublist. Qed.

Lemma lookup_mask_select mask l k a :
  Pandas.mask_select mask l !! k = Some a →
  ∃ i, l !! i = Some a ∧ mask !! i = Some true.
Proof.
  revert l k. induction mask as [|b mask IH]; intros [|x l] k; simpl;
    try done.
  destruct b.
  - destruct k as [|k]; simpl.
    + intros [= ->]. by exists 0.
    + intros (i & ? & ?)%IH. by exists (S i).
  - intros (i & ? & ?)%IH. by exists (S i).
Qed.
End mask_select_facts.

Lemma is_current_match_succ offset i :
  S i < length offset →
  Steps.is_current_match offset 1 4 (S i) =
    Steps.is_previous_anchor offset 1 4 i.
Proof.
  intros Hi. unfold Steps.is_current_match, Steps.is_previous_anchor,
    Steps.current_has_valid_anchor, Steps.anchor_within_bound,
    Steps.anchor_candidate.
  rewrite decide_True by done.
  by destruct (Steps.current offset 1 (S i)).
Qed.

Lemma is_previous_anchor_last offset i :
  length offset ≤ S i → Steps.is_previous_anchor offset 1 4 i = false.
Proof.
  intros Hi. unfold Steps.is_previous_anchor, Steps.anchor_candidate.
  by rewrite decide_False by lia.
Qed.

Lemma is_current_match_first offset :
  Steps.is_current_match offset 1 4 0 = false.
Proof. unfold Steps.is_current_match. simpl. apply andb_false_r. Qed.

Lemma get_matching_and_prev_shape offset :
  offset ≠ [] →
  get_matching_and_prev offset =
    (false :: paired_mask offset, paired_mask offset ++ [false]).
Proof.
  intros Hne.
  assert (0 < length offset) as Hlen by (destruct offset; [done | simpl; lia]).
  rewrite (surjective_pairing (get_matching_and_prev offset)).
  unfold paired_mask. f_equal; apply list_eq; intros i.
  - rewrite lookup_is_current_match. destruct i as [|j]; simpl.
    + rewrite decide_True by done. by rewrite is_current_match_first.
    + rewrite lookup_fmap_seq. repeat case_decide; try lia; [|done].
      by rewrite is_current_match_succ.
  - rewrite lookup_is_previous_anchor.
    destruct (decide (S i < length offset)) as [Hi|Hi].
    + rewrite lookup_app_l by (rewrite length_fmap, length_seq; lia).
      rewrite lookup_fmap_seq. repeat case_decide; done || lia.
    + rewrite lookup_app_r by (rewrite length_fmap, length_seq; lia).
      rewrite length_fmap, length_seq.
      case_decide.
      * replace (i - pred (length offset)) with 0 by lia. simpl.
        by rewrite is_previous_anchor_last by lia.
      * apply eq_sym, lookup_ge_None_2. simpl. lia.
Qed.

Lemma get_matching_and_prev_nil : get_matching_and_prev [] = ([], []).
Proof. reflexivity. Qed.

(** ** The selector *)

Lemma length_insert_key k l : length (Pandas.insert k l) = S (length l).
Proof.
  induction l as [|h t IH]; simpl; [done|].
  destruct (Pandas.key_leb k h); simpl; by rewrite ?IH.
Qed.

Lemma length_sort_index l : length (Pandas.sort_index l) = length l.
Proof.
  induction l as [|k l IH]; simpl; [done|].
  unfold Pandas.sort_index in *. by rewrite length_insert_key, IH.
Qed.

Lemma insert_key_Permutation k l : Pandas.insert k l ≡ₚ k :: l.
Proof.
  induction l as [|h t IH]; simpl; [done|].
  destruct (Pandas.key_leb k h); [done|].
  rewrite IH. apply Permutation_swap.
Qed.

Lemma sort_index_Permutation l : Pandas.sort_index l ≡ₚ l.
Proof.
  induction l as [|k l IH]; simpl; [done|].
  rewrite insert_key_Permutation. by f_equiv.
Qed.

Lemma key_leb_time_lt (a b : Key) s t :
  key_time a = Time s → key_time b = Time t → (s < t)%Z →
  Pandas.key_leb a b = true.
Proof.
  intros Ha Hb Hlt. unfold Pandas.key_leb, Pandas.key_compare.
  rewrite Ha, Hb. simpl. by rewrite (proj2 (Z.compare_lt_iff s t)).
Qed.

Lemma sort_index_increasing (rs : list Row) :
  StronglySorted Z.lt (label <$> rs) →
  Pandas.sort_index (key_of <$> rs) = key_of <$> rs.
Proof.
  unfold Pandas.sort_index.
  induction rs as [|r rs IH]; [done|].
  rewrite !fmap_cons. cbn [foldr].
  intros [Hrs Hr]%StronglySorted_inv. rewrite IH by done.
  destruct rs as [|r' rs]; [done|].
  rewrite !fmap_cons in *. cbn [Pandas.insert].
  rewrite (key_leb_time_lt _ _ (label r) (label r')); [done..|].
  by apply Forall_cons in Hr as [? _].
Qed.

Lemma filter_missing_nil (labels cols : list string) :
  Forall (λ l, l ∈ cols) labels → filter (λ l, l ∉ cols) labels = [].
Proof.
  induction 1 as [|l labels Hl _ IH]; [done|].
  rewrite filter_cons_False by (intros H; by apply H). done.
Qed.

Lemma create_modis_selection_ok df :
  station_schema df →
  create_modis_selection df "datetime" "latitude" "longitude" =
    Ok (Pandas.sort_index (key_of <$> rows df)).
Proof.
  intros (Hlat & Hlon & Hdt).
  unfold create_modis_selection, Pandas.reset_index, Pandas.index_name.
  rewrite decide_False by done. simpl.
  unfold Pandas.set_index_keys. simpl columns.
  rewrite filter_missing_nil
    by (repeat constructor; set_solver).
  simpl. do 2 f_equal.
  rewrite fmap_imap. rewrite <-(imap_const key_of).
  apply imap_ext. intros i r _. reflexivity.
Qed.

(** ** The matcher *)

Lemma fst_set_field name v fs : (Pandas.set_field name v fs).*1 = fs.*1.
Proof.
  unfold Pandas.set_field. rewrite <-list_fmap_compose.
  apply list_fmap_ext. intros _ [k c] _. simpl. by case_decide.
Qed.

Lemma field_set_field name v fs :
  name ∈ fs.*1 → field name (Pandas.set_field name v fs) = Some v.
Proof.
  induction fs as [|[k c] fs IH]; simpl; [by intros ?%elem_of_nil|].
  intros [->|Hin]%elem_of_cons.
  - by rewrite !decide_True.
  - destruct (decide (k = name)) as [->|Hne]; simpl.
    + by rewrite decide_True.
    + rewrite decide_False by done. by apply IH.
Qed.

Lemma field_set_field_ne name other v fs :
  other ≠ name → field other (Pandas.set_field name v fs) = field other fs.
Proof.
  intros Hne. induction fs as [|[k c] fs IH]; simpl; [done|].
  destruct (decide (k = name)) as [->|]; simpl;
    destruct (decide (_ = other)); congruence.
Qed.

Lemma field_app name fs1 fs2 :
  field name (fs1 ++ fs2) =
    match field name fs1 with Some c => Some c | None => field name fs2 end.
Proof.
  induction fs1 as [|[k c] fs1 IH]; simpl; [done|]. by case_decide.
Qed.

Lemma field_None name fs : name ∉ fs.*1 → field name fs = None.
Proof.
  induction fs as [|[k c] fs IH]; simpl; [done|].
  intros [? ?]%not_elem_of_cons. rewrite decide_False by done. auto.
Qed.

Lemma field_is_Some name fs : name ∈ fs.*1 → is_Some (field name fs).
Proof.
  induction fs as [|[k c] fs IH]; simpl; [by intros ?%elem_of_nil|].
  intros [->|Hin]%elem_of_cons; [by rewrite decide_True|].
  case_decide; eauto.
Qed.

Section with_cell_facts.
Variables (cols : list string) (name : string) (r : Row) (v : cell).
Hypothesis Hr : (fields r).*1 = cols.

Lemma label_with_cell : label (Pandas.with_cell cols name r v) = label r.
Proof. done. Qed.

Lemma fst_with_cell :
  (fields (Pandas.with_cell cols name r v)).*1 = Pandas.add_column cols name.
Proof.
  unfold Pandas.with_cell, Pandas.add_column. simpl. case_decide.
  - by rewrite fst_set_field.
  - by rewrite fmap_app, Hr.
Qed.

Lemma get_with_cell : get name (Pandas.with_cell cols name r v) = v.
Proof.
  unfold get, Pandas.with_cell. simpl. case_decide.
  - rewrite field_set_field; [done|]. by rewrite Hr.
  - rewrite field_app, field_None by (by rewrite Hr).
    simpl. by rewrite decide_True.
Qed.

Lemma get_with_cell_ne other :
  other ≠ name → get other (Pandas.with_cell cols name r v) = get other r.
Proof.
  intros Hne. unfold get, Pandas.with_cell. simpl. case_decide.
  - by rewrite field_set_field_ne.
  - rewrite field_app. destruct (field other (fields r)); [done|].
    simpl. by rewrite decide_False.
Qed.
End with_cell_facts.

Lemma elem_of_add_column cols name c :
  c ∈ Pandas.add_column cols name ↔ c ∈ cols ∨ c = name.
Proof.
  unfold Pandas.add_column. case_decide as Hin.
  - split; [auto|]. by intros [?| ->].
  - by rewrite elem_of_app, list_elem_of_singleton.
Qed.

Lemma elem_of_attach_columns cols c :
  c ∈ attach_columns cols ↔ c ∈ cols ∨ c = "modis_LST" ∨ c = "modis_time".
Proof.
  unfold attach_columns. rewrite !elem_of_add_column. tauto.
Qed.

Lemma attach_modis_ok matched df :
  length matched = length (rows df) →
  attach_modis matched df =
    Ok (mkFrame (attach_columns (columns df))
          (zip_with (attach_row (columns df)) (rows df) matched)).
Proof.
  intros Hlen. unfold attach_modis, Pandas.setitem.
  rewrite decide_True by (by rewrite length_fmap).
  simpl. rewrite decide_True
    by (rewrite length_zip_with, !length_fmap; lia).
  do 2 f_equal. clear Hlen.
  generalize (rows df) as rs. intros rs. revert matched.
  induction rs as [|r rs IH]; intros [|m matched]; simpl; try done.
  by rewrite IH.
Qed.

Section attach_row_facts.
Variables (cols : list string) (r : Row) (m : GridSample).
Hypothesis Hr : (fields r).*1 = cols.

Lemma label_attach_row : label (attach_row cols r m) = label r.
Proof. done. Qed.

Lemma fst_attach_row : (fields (attach_row cols r m)).*1 = attach_columns cols.
Proof. unfold attach_row. by rewrite fst_with_cell by (by apply fst_with_cell). Qed.

Lemma get_attach_row_time :
  get "modis_time" (attach_row cols r m) = Time (sample_time m).
Proof. unfold attach_row. by rewrite get_with_cell by (by apply fst_with_cell). Qed.

Lemma get_attach_row_value :
  get "modis_LST" (attach_row cols r m) = sample_value m.
Proof.
  unfold attach_row. rewrite get_with_cell_ne by done.
  by apply get_with_cell.
Qed.

Lemma attach_row_plain :
  "modis_LST" ∉ cols → "modis_time" ∉ cols →
  fields (attach_row cols r m) =
    fields r ++ [("modis_LST", sample_value m);
                 ("modis_time", Time (sample_time m))].
Proof.
  intros H1 H2. unfold attach_row, Pandas.with_cell. simpl.
  rewrite (decide_False (P := "modis_LST" ∈ cols)) by done.
  rewrite decide_False.
  - by rewrite <-app_assoc.
  - rewrite elem_of_add_column. intros [?|?]; done.
Qed.
End attach_row_facts.

(** ** The time offsets *)

Lemma time_difference_ok matched df :
  "datetime" ∉ columns df →
  time_difference matched df = Ok (zip_with offset_hours (rows df) matched).
Proof.
  intros Hdt. unfold time_difference, Pandas.reset_index, Pandas.index_name.
  rewrite decide_False by done. simpl.
  unfold mret, result_ret. f_equal.
  rewrite fmap_imap.
  rewrite (imap_ext _ (const (Time ∘ label)) (rows df)) by done.
  rewrite imap_const, zip_with_fmap_l, zip_with_fmap_r. done.
Qed.

(** ** The joiner *)

Lemma length_mask_select_same {A B} mask (l : list A) (k : list B) :
  length mask ≤ length l → length mask ≤ length k →
  length (Pandas.mask_select mask l) = length (Pandas.mask_select mask k).
Proof.
  revert l k. induction mask as [|b mask IH]; intros [|x l] [|y k];
    simpl; try done; try lia.
  intros ? ?. destruct b; simpl; rewrite (IH l k); lia.
Qed.

Lemma tm1_overlap cols c : c ∈ cols → tm1 cols c = c +:+ "_tm1".
Proof. intros Hc. unfold tm1, Pandas.suffixed. by rewrite decide_True. Qed.

Lemma join_matches_ok mask_t1 mask_t0 df :
  length mask_t1 = length (rows df) →
  length mask_t0 = length (rows df) →
  length (Pandas.mask_select mask_t1 (rows df)) =
    length (Pandas.mask_select mask_t0 (rows df)) →
  Forall (λ c, c ∈ columns df)
    ["modis_LST"; "modis_time"; "latitude"; "longitude"] →
  join_matches mask_t1 mask_t0 df =
    Ok (mkFrame (emitted_columns (columns df))
          (emitted_rows (columns df)
             (Pandas.mask_select mask_t1 (rows df))
             (Pandas.mask_select mask_t0 (rows df)))).
Proof.
  intros H1 H0 Hsame Hcols.
  unfold join_matches, Pandas.loc. rewrite !decide_True by done. simpl.
  unfold Pandas.set_index, Pandas.index. simpl rows.
  rewrite decide_True by (by rewrite length_fmap). simpl.
  apply Forall_cons in Hcols as [Hv Hcols].
  apply Forall_cons in Hcols as [Ht Hcols].
  apply Forall_cons in Hcols as [Hlat Hcols].
  apply Forall_cons in Hcols as [Hlon _].
  unfold Pandas.dropna. simpl columns.
  rewrite decide_True by (apply elem_of_app; by left). simpl.
  unfold Pandas.drop. simpl columns.
  rewrite filter_missing_nil; [done|].
  fold (tm1 (columns df)).
  repeat constructor; apply elem_of_app; right; apply list_elem_of_fmap.
  - exists "modis_time". by rewrite tm1_overlap.
  - exists "modis_LST". by rewrite tm1_overlap.
  - exists "latitude". by rewrite tm1_overlap.
  - exists "longitude". by rewrite tm1_overlap.
Qed.

Lemma offset_hours_attached cols rs matched :
  zip_with offset_hours (zip_with (attach_row cols) rs matched) matched =
    zip_with offset_hours rs matched.
Proof.
  revert matched. induction rs as [|r rs IH]; intros [|m matched];
    simpl; try done.
  by rewrite IH.
Qed.

#[local] Opaque get_matching_and_prev.

Section normal_form.
Variable da_modis_sel : Key → GridSample.
Variable df : DataFrame.
Hypothesis Hschema : station_schema df.

Let matched := da_modis_sel <$> Pandas.sort_index (key_of <$> rows df).
Let rows2 := zip_with (attach_row (columns df)) (rows df) matched.
Let masks := get_matching_and_prev (zip_with offset_hours (rows df) matched).

Lemma length_matched : length matched = length (rows df).
Proof.
  unfold matched. by rewrite length_fmap, length_sort_index, length_fmap.
Qed.

Lemma length_rows2 : length rows2 = length (rows df).
Proof. unfold rows2. rewrite length_zip_with, length_matched. lia. Qed.

Lemma length_offsets :
  length (zip_with offset_hours (rows df) matched) = length (rows df).
Proof. rewrite length_zip_with, length_matched. lia. Qed.

Lemma masks_same_count :
  length (Pandas.mask_select masks.1 rows2) =
    length (Pandas.mask_select masks.2 rows2).
Proof.
  unfold masks.
  destruct (decide (zip_with offset_hours (rows df) matched = [])) as [->|Hne].
  { done. }
  rewrite get_matching_and_prev_shape by done. cbn [fst snd].
  pose proof length_rows2 as Hlen. rewrite <-length_offsets in Hlen.
  assert (length (paired_mask (zip_with offset_hours (rows df) matched)) =
          pred (length rows2)) as Hpm.
  { unfold paired_mask. by rewrite length_fmap, length_seq, Hlen. }
  rewrite mask_select_snoc_false by lia.
  revert Hpm. generalize (paired_mask (zip_with offset_hours (rows df) matched)).
  clear Hlen. generalize rows2. intros [|r2 rs2] pm Hpm; simpl in *.
  - by rewrite mask_select_nil_r.
  - apply length_mask_select_same; simpl in *; lia.
Qed.

Lemma match_station_with_modis_normal_form :
  match_station_with_modis da_modis_sel df =
    Ok (mkFrame (emitted_columns (attach_columns (columns df)))
          (emitted_rows (attach_columns (columns df))
             (Pandas.mask_select masks.1 rows2)
             (Pandas.mask_select masks.2 rows2))).
Proof.
  unfold match_station_with_modis.
  rewrite create_modis_selection_ok by done. simpl.
  fold matched. rewrite attach_modis_ok by apply length_matched. simpl.
  destruct Hschema as (Hlat & Hlon & Hdt).
  rewrite time_difference_ok.
  2:{ simpl. rewrite elem_of_attach_columns. intros [?|[?|?]]; done. }
  simpl. rewrite offset_hours_attached. fold rows2 masks.
  apply join_matches_ok; cbn [rows columns]; fold rows2.
  - unfold masks. by rewrite length_is_current_match, length_offsets, length_rows2.
  - unfold masks. by rewrite length_is_previous_anchor, length_offsets, length_rows2.
  - apply masks_same_count.
  - repeat constructor; rewrite elem_of_attach_columns; auto.
Qed.
End normal_form.

(** ** What every emitted row is made of *)

Lemma field_filter_keep name (labels : list string) fs :
  name ∉ labels →
  field name (filter (λ kc : string * cell, kc.1 ∉ labels) fs) = field name fs.
Proof.
  intros Hname. induction fs as [|[k c] fs IH]; [done|].
  destruct (decide (k ∈ labels)) as [Hk|Hk].
  - rewrite filter_cons_False by (simpl; tauto). simpl.
    rewrite decide_False by (by intros ->). done.
  - rewrite filter_cons_True by done. simpl. by rewrite IH.
Qed.

Lemma field_Some_elem_of name fs c : field name fs = Some c → (name, c) ∈ fs.
Proof.
  induction fs as [|[k c'] fs IH]; simpl; [done|].
  case_decide as Hk.
  - intros [= ->]. subst. apply list_elem_of_here.
  - intros ?%IH. by apply list_elem_of_further.
Qed.

Lemma notna_in_elem_of name r c :
  Pandas.notna_in name r = true → (name, c) ∈ fields r → isna c = false.
Proof.
  unfold Pandas.notna_in. rewrite forallb_forall. intros Hall Hin.
  apply list_elem_of_In, Hall in Hin. simpl in Hin.
  rewrite bool_decide_eq_true_2 in Hin by done.
  by destruct (isna c).
Qed.

Lemma elem_of_join_rows rename cols L R j :
  j ∈ Pandas.join_rows rename cols L R →
  ∃ l extra, l ∈ L ∧ label j = label l ∧ fields j = fields l ++ extra.
Proof.
  unfold Pandas.join_rows. intros (l & Hj & Hl)%list_elem_of_bind.
  exists l. destruct (filter _ R) as [|m ms].
  - apply list_elem_of_singleton in Hj as ->. by eexists.
  - apply list_elem_of_fmap in Hj as (r & -> & _). by eexists.
Qed.

Lemma elem_of_emitted_rows cols L R rec :
  rec ∈ emitted_rows cols L R →
  ∃ l extra, l ∈ L ∧ label rec = label l
    ∧ fields rec =
        filter (λ kc, kc.1 ∉ dropped_columns) (fields l ++ extra)
    ∧ Pandas.notna_in "modis_LST" (mkRow (label l) (fields l ++ extra)) = true.
Proof.
  unfold emitted_rows.
  intros (j & -> & [Hna Hj]%list_elem_of_filter)%list_elem_of_fmap.
  apply elem_of_join_rows in Hj as (l & extra & Hl & Hlab & Hfs).
  exists l, extra. repeat split; [done..| |].
  - simpl. by rewrite Hfs.
  - unfold Pandas.notna_in in *. simpl. by rewrite <-Hfs.
Qed.

Lemma elem_of_attached cols rs matched r2 :
  r2 ∈ zip_with (attach_row cols) rs matched →
  ∃ r m, r ∈ rs ∧ m ∈ matched ∧ r2 = attach_row cols r m.
Proof. intros (r & m & -> & ? & ?)%elem_of_zip_with. eauto. Qed.

Section emitted_value.
Variable da_modis_sel : Key → GridSample.
Variable df : DataFrame.
Hypothesis Hschema : station_schema df.
Hypothesis Hwf : well_formed df.

Lemma emitted_value_defined out rec :
  match_station_with_modis da_modis_sel df = Ok out →
  rec ∈ rows out →
  ∃ c, field "modis_LST" (fields rec) = Some c ∧ isna c = false.
Proof.
  rewrite match_station_with_modis_normal_form by done.
  intros [= <-]. simpl.
  intros (l & extra & Hl & _ & Hfs & Hna)%elem_of_emitted_rows.
  apply elem_of_mask_select, elem_of_attached in Hl as (r & m & Hr & _ & ->).
  assert ((fields r).*1 = columns df) as Hcols.
  { unfold well_formed in Hwf. rewrite Forall_forall in Hwf. by apply Hwf. }
  destruct (field_is_Some "modis_LST" (fields (attach_row (columns df) r m)))
    as [c Hc].
  { rewrite fst_attach_row, elem_of_attach_columns by done. auto. }
  exists c. split.
  - rewrite Hfs, field_filter_keep, field_app, Hc; [done|].
    unfold dropped_columns. rewrite !not_elem_of_cons.
    repeat split; [done..|apply not_elem_of_nil].
  - eapply notna_in_elem_of; [exact Hna|]. simpl.
    apply elem_of_app. left. by apply field_Some_elem_of.
Qed.
End emitted_value.

(** ** Pairing the two selections *)

Lemma paired_selection {A} (pm : list bool) (l : list A) :
  length l = S (length pm) →
  zip (Pandas.mask_select (false :: pm) l) (Pandas.mask_select (pm ++ [false]) l) =
    Pandas.mask_select pm (zip (tail l) l).
Proof.
  intros Hlen. rewrite mask_select_snoc_false by lia.
  destruct l as [|a l]; [done|]. by rewrite mask_select_zip.
Qed.

Lemma increasing_lookup (ts : list Z) i j a b :
  StronglySorted Z.lt ts → ts !! i = Some a → ts !! j = Some b → i < j →
  (a < b)%Z.
Proof.
  intros Hs. revert i j. induction Hs as [|t ts Hs IH Ht]; intros i j; [done|].
  destruct i as [|i], j as [|j]; simpl; try lia.
  - intros [= ->] Hb _. rewrite Forall_forall in Ht.
    apply Ht. by eapply list_elem_of_lookup_2.
  - intros Ha Hb ?. apply (IH i j); [done..|lia].
Qed.

Lemma increasing_NoDup (ts : list Z) : StronglySorted Z.lt ts → NoDup ts.
Proof.
  induction 1 as [|t ts Hs IH Ht]; constructor; [|done].
  intros Hin. rewrite Forall_forall in Ht. specialize (Ht _ Hin). lia.
Qed.

Section pairing.
Variable offset : list float.
Variable df : DataFrame.
Hypothesis Hlen : length (rows df) = length offset.

Let masks := get_matching_and_prev offset.

Lemma pairing_selected k cur anc :
  Pandas.mask_select masks.1 (rows df) !! k = Some cur →
  Pandas.mask_select masks.2 (rows df) !! k = Some anc →
  ∃ i, rows df !! i = Some anc ∧ rows df !! S i = Some cur
       ∧ masks.2 !! i = Some true ∧ masks.1 !! S i = Some true.
Proof.
  unfold masks. destruct (decide (offset = [])) as [->|Hne].
  { rewrite get_matching_and_prev_nil. by destruct (rows df). }
  rewrite get_matching_and_prev_shape by done. cbn [fst snd].
  intros Hcur Hanc.
  assert (length (paired_mask offset) = pred (length offset)) as Hpm.
  { unfold paired_mask. by rewrite length_fmap, length_seq. }
  assert (0 < length offset) by (destruct offset; [done | simpl; lia]).
  assert (zip (Pandas.mask_select (false :: paired_mask offset) (rows df))
            (Pandas.mask_select (paired_mask offset ++ [false]) (rows df))
          !! k = Some (cur, anc)) as Hzip.
  { apply lookup_zip_with_Some. eauto. }
  rewrite paired_selection in Hzip by lia.
  apply lookup_mask_select in Hzip as (i & Hi & Hm).
  apply lookup_zip_with_Some in Hi as (c & a & [= <- <-] & Hc & Ha).
  rewrite lookup_tail in Hc.
  exists i. repeat split; [done..| |done].
  apply lookup_app_l_Some. done.
Qed.

Lemma selections_same_length :
  length (Pandas.mask_select masks.1 (rows df)) =
    length (Pandas.mask_select masks.2 (rows df)).
Proof.
  unfold masks. destruct (decide (offset = [])) as [->|Hne].
  { by rewrite get_matching_and_prev_nil. }
  rewrite get_matching_and_prev_shape by done. cbn [fst snd].
  assert (length (paired_mask offset) = pred (length offset)) as Hpm.
  { unfold paired_mask. by rewrite length_fmap, length_seq. }
  assert (0 < length offset) by (destruct offset; [done | simpl; lia]).
  rewrite mask_select_snoc_false by lia.
  destruct (rows df) as [|r rs]; simpl in *; [lia|].
  apply length_mask_select_same; simpl; lia.
Qed.
End pairing.

(** C10: a position whose offset is undefined is in neither mask, so it is
    not among the positions selected as current rows or as anchor rows. *)
Theorem undefined_offset_is_never_selected (offset : list float) (i : nat) :
  offset !! i = Some NaN →
  let masks := get_matching_and_prev offset in
  masks.1 !! i = Some false ∧ masks.2 !! i = Some false
  ∧ (i ∉ Pandas.mask_select masks.1 (seq 0 (length offset)))
  ∧ (i ∉ Pandas.mask_select masks.2 (seq 0 (length offset))).
Proof.
  intros Hi masks.
  assert (i < length offset) as Hlt by (by eapply lookup_lt_Some).
  assert (masks.1 !! i = Some false) as H1.
  { unfold masks. rewrite lookup_is_current_match, decide_True by done.
    unfold Steps.is_current_match, Steps.current, Steps.within.
    by rewrite Hi. }
  assert (masks.2 !! i = Some false) as H2.
  { unfold masks. rewrite lookup_is_previous_anchor, decide_True by done.
    unfold Steps.is_previous_anchor, Steps.anchor_within_bound, Steps.within.
    rewrite Hi. simpl. by rewrite !andb_false_r. }
  repeat split; [done..| |].
  - intros (k & Hk)%list_elem_of_lookup.
    apply lookup_mask_select in Hk as (j & Hj & Hm).
    apply lookup_seq in Hj as [-> _]. simpl in *. congruence.
  - intros (k & Hk)%list_elem_of_lookup.
    apply lookup_mask_select in Hk as (j & Hj & Hm).
    apply lookup_seq in Hj as [-> _]. simpl in *. congruence.
Qed.

Lemma undefined_offset_is_never_selected_witness :
  let masks := get_matching_and_prev [Fin 0; NaN; Fin 0] in
  masks.1 !! 1 = Some false ∧ masks.2 !! 1 = Some false
  ∧ (1 ∉ Pandas.mask_select masks.1 (seq 0 3))
  ∧ (1 ∉ Pandas.mask_select masks.2 (seq 0 3)).
Proof.
  apply (undefined_offset_is_never_selected [Fin 0; NaN; Fin 0] 1).
  reflexivity.
Defined.

(** C4: an undefined grid value raises nothing: on every well-formed
    station frame with the coordinate columns, whatever the grid returns,
    [match_station_with_modis] returns a table, and no row of that table
    has a missing [modis_LST]. *)
Theorem undefined_grid_value_is_dropped
    (da_modis_sel : Key → GridSample) (df : DataFrame) :
  station_schema df → well_formed df →
  ∃ out, match_station_with_modis da_modis_sel df = Ok out
    ∧ ∀ rec, rec ∈ rows out →
        ∃ c, field "modis_LST" (fields rec) = Some c ∧ isna c = false.
Proof.
  intros Hschema Hwf. eexists. split.
  - by apply match_station_with_modis_normal_form.
  - intros rec Hrec.
    eapply emitted_value_defined; [done..| |done].
    by apply match_station_with_modis_normal_form.
Qed.

Lemma undefined_grid_value_is_dropped_witness :
  ∃ out, match_station_with_modis Sample.grid Sample.group = Ok out
    ∧ ∀ rec, rec ∈ rows out →
        ∃ c, field "modis_LST" (fields rec) = Some c ∧ isna c = false.
Proof.
  apply (undefined_grid_value_is_dropped Sample.grid Sample.group).
  - unfold station_schema. compute_done.
  - unfold well_formed. compute_done.
Defined.

Lemma emitted_rows_nil cols R : emitted_rows cols [] R = [].
Proof. reflexivity. Qed.

(** C5: the first position is never a current match, and a group with a
    single observation gives a table without rows, not an error. *)
Theorem first_row_is_never_current_match :
  (∀ offset, (get_matching_and_prev offset).1 !! 0 ≠ Some true)
  ∧ (∀ (da_modis_sel : Key → GridSample) (df : DataFrame),
       station_schema df → length (rows df) = 1 →
       ∃ out, match_station_with_modis da_modis_sel df = Ok out
         ∧ rows out = []).
Proof.
  split.
  - intros offset. rewrite lookup_is_current_match.
    case_decide; [|done]. by rewrite is_current_match_first.
  - intros da df Hschema Hone. eexists. split.
    { by apply match_station_with_modis_normal_form. }
    cbn [rows].
    pose proof (length_offsets da df) as Hoff. rewrite Hone in Hoff.
    destruct (zip_with offset_hours _ _) as [|x [|? ?]] eqn:E; try done.
    rewrite get_matching_and_prev_shape by done. cbn [fst].
    unfold paired_mask. simpl.
    destruct (zip_with (attach_row _) _ _); apply emitted_rows_nil.
Qed.

Lemma first_row_is_never_current_match_witness :
  (get_matching_and_prev Sample.offsets).1 !! 0 ≠ Some true
  ∧ ∃ out, match_station_with_modis Sample.grid Sample.single = Ok out
      ∧ rows out = [].
Proof.
  split.
  - apply (proj1 first_row_is_never_current_match).
  - apply (proj2 first_row_is_never_current_match Sample.grid Sample.single).
    + unfold station_schema. compute_done.
    + reflexivity.
Defined.

(** C7, as the code has it: [match_station_with_modis] does not look at the
    order or the uniqueness of the timestamps.  A group whose timestamps do
    not increase strictly is not rejected: the masks are computed from the
    rows in the order given, against the grid samples of the sorted keys,
    and the table of the selected rows is returned. *)
Theorem unordered_timestamps_are_not_rejected
    (da_modis_sel : Key → GridSample) (df : DataFrame) :
  station_schema df → ¬ strictly_increasing df →
  let matched := da_modis_sel <$> Pandas.sort_index (key_of <$> rows df) in
  let annotated := zip_with (attach_row (columns df)) (rows df) matched in
  let masks := get_matching_and_prev (zip_with offset_hours (rows df) matched) in
  match_station_with_modis da_modis_sel df =
    Ok (mkFrame (emitted_columns (attach_columns (columns df)))
          (emitted_rows (attach_columns (columns df))
             (Pandas.mask_select masks.1 annotated)
             (Pandas.mask_select masks.2 annotated))).
Proof.
  intros Hschema _. by apply match_station_with_modis_normal_form.
Qed.

Lemma unordered_timestamps_are_not_rejected_witness :
  is_ok (match_station_with_modis Sample.grid Sample.unsorted_group).
Proof.
  rewrite (unordered_timestamps_are_not_rejected Sample.grid Sample.unsorted_group).
  - exact I.
  - unfold station_schema. compute_done.
  - unfold strictly_increasing. compute_done.
Defined.

(** C7, as the specification has it, fails: the group below has
    timestamps out of order, and it is matched, not rejected. *)
Lemma unsorted_group_is_matched :
  ¬ strictly_increasing Sample.unsorted_group
  ∧ match_station_with_modis Sample.grid Sample.unsorted_group =
      Ok (mkFrame
            ["latitude"; "longitude"; "temperature"; "modis_LST";
             "modis_time"; "temperature_tm1"]
            [mkRow (3 * Sample.hour)
               [("latitude", Num 1); ("longitude", Num 2);
                ("temperature", Num 12); ("modis_LST", Num 300);
                ("modis_time", Time (3 * Sample.hour));
                ("temperature_tm1", Num 10)]]).
Proof.
  split.
  - unfold strictly_increasing. compute_done.
  - vm_compute. reflexivity.
Qed.

(** ** Column labels with a suffix *)

Lemma string_length_app (s t : string) :
  String.length (s +:+ t) = String.length s + String.length t.
Proof. induction s as [|a s IH]; simpl; [done|]. by rewrite IH. Qed.

Lemma string_app_suffix_inj (t : string) :
  Inj (=) (=) (λ s, s +:+ t).
Proof.
  intros s1. induction s1 as [|a s1 IH]; intros [|b s2] Heq; simpl in *.
  - done.
  - apply (f_equal String.length) in Heq.
    rewrite ?string_length_app in Heq. simpl in Heq.
    rewrite ?string_length_app in Heq. lia.
  - apply (f_equal String.length) in Heq.
    rewrite ?string_length_app in Heq. simpl in Heq.
    rewrite ?string_length_app in Heq. lia.
  - injection Heq as -> Heq. f_equal. by apply IH.
Qed.

Lemma suffixed_ne_modis_LST (k : string) : k +:+ "_tm1" ≠ "modis_LST".
Proof.
  intros Heq.
  assert (String.length k = 5) as Hlen.
  { apply (f_equal String.length) in Heq.
    rewrite string_length_app in Heq. simpl in Heq. lia. }
  destruct k as [|a1 [|a2 [|a3 [|a4 [|a5 [|a6 k]]]]]]; simpl in Hlen; try lia.
  cbv in Heq. repeat (injection Heq as ? Heq). discriminate.
Qed.

Lemma dropped_columns_suffixed :
  dropped_columns =
    (λ k, k +:+ "_tm1") <$> ["modis_time"; "modis_LST"; "latitude"; "longitude"].
Proof. reflexivity. Qed.

Lemma suffixed_dropped (k : string) :
  k +:+ "_tm1" ∈ dropped_columns
  ↔ k ∈ ["modis_time"; "modis_LST"; "latitude"; "longitude"].
Proof.
  rewrite dropped_columns_suffixed.
  apply (@list_elem_of_fmap_inj _ _ (λ k, k +:+ "_tm1")
           (string_app_suffix_inj "_tm1")).
Qed.

(** ** Filters and maps *)
Section filter_facts.
Context {A B : Type}.

Lemma filter_all (P : A → Prop) `{!∀ x, Decision (P x)} (l : list A) :
  Forall P l → filter P l = l.
Proof.
  induction 1 as [|x l Hx _ IH]; [done|].
  by rewrite filter_cons_True, IH.
Qed.

Lemma filter_none (P : A → Prop) `{!∀ x, Decision (P x)} (l : list A) :
  Forall (λ x, ¬ P x) l → filter P l = [].
Proof.
  induction 1 as [|x l Hx _ IH]; [done|].
  by rewrite filter_cons_False, IH.
Qed.

Lemma filter_ext_in (P Q : A → Prop)
    `{!∀ x, Decision (P x), !∀ x, Decision (Q x)} (l : list A) :
  Forall (λ x, P x ↔ Q x) l → filter P l = filter Q l.
Proof.
  induction 1 as [|x l Hx _ IH]; [done|].
  destruct (decide (P x)) as [HP|HP].
  - rewrite !filter_cons_True by tauto. by rewrite IH.
  - rewrite !filter_cons_False by tauto. done.
Qed.

Lemma filter_fmap (f : A → B) (P : B → Prop) `{!∀ y, Decision (P y)}
    (l : list A) :
  filter P (f <$> l) = f <$> filter (λ x, P (f x)) l.
Proof.
  induction l as [|x l IH]; [done|]. rewrite fmap_cons.
  destruct (decide (P (f x))) as [HP|HP].
  - rewrite !filter_cons_True by done. by rewrite fmap_cons, IH.
  - rewrite !filter_cons_False by done. done.
Qed.

Lemma mask_select_fmap_filter (g : A → bool) (h : A → B) (l : list A) :
  Pandas.mask_select (g <$> l) (h <$> l) = h <$> filter (λ x, g x = true) l.
Proof.
  induction l as [|x l IH]; [done|]. rewrite !fmap_cons. simpl.
  destruct (g x) eqn:Hg.
  - rewrite filter_cons_True by done. by rewrite fmap_cons, IH.
  - rewrite filter_cons_False by (by rewrite Hg). done.
Qed.

Lemma zip_fmap (f : A → B) (l k : list A) :
  zip (f <$> l) (f <$> k) = prod_map f f <$> zip l k.
Proof.
  revert k. induction l as [|x l IH]; intros [|y k]; simpl; try done.
  by rewrite IH.
Qed.
End filter_facts.

(** ** The join on unique labels *)

Lemma filter_label_relabel t L R :
  t ∉ label <$> L → filter (λ r, label r = t) (relabel L R) = [].
Proof.
  intros Ht. apply filter_none. apply Forall_forall. intros r' Hr' Heq.
  unfold relabel in Hr'.
  apply elem_of_zip_with in Hr' as (t' & r & -> & Ht' & _).
  simpl in Heq. by subst.
Qed.

Lemma join_rows_unique_aux rename cols (pre L R : list Row) :
  length L = length R →
  NoDup (label <$> L) →
  (∀ l r, l ∈ L → r ∈ pre → label r ≠ label l) →
  (l ← L;
   match filter (λ r, label r = label l) (pre ++ relabel L R) with
   | [] => [Pandas.unmatched_row rename cols l]
   | ms => Pandas.joined_row rename l <$> ms
   end) = zip_with (Pandas.joined_row rename) L R.
Proof.
  revert pre R. induction L as [|l L IH]; intros pre [|r R] Hlen Hnd Hpre;
    simpl in Hlen; try done.
  rewrite fmap_cons in Hnd. apply NoDup_cons in Hnd as [Hl Hnd].
  rewrite bind_cons.
  assert (filter (λ r0, label r0 = label l) (pre ++ relabel (l :: L) (r :: R))
          = [mkRow (label l) (fields r)]) as ->.
  { rewrite filter_app. rewrite (filter_none _ pre).
    2:{ apply Forall_forall. intros r' Hr'. apply Hpre; [left|done]. }
    unfold relabel. rewrite fmap_cons. simpl zip_with.
    rewrite filter_cons_True by done.
    fold (relabel L R). rewrite filter_label_relabel by done.
    done. }
  simpl. f_equal.
  unfold relabel. rewrite fmap_cons. simpl zip_with. fold (relabel L R).
  rewrite <-(IH (pre ++ [mkRow (label l) (fields r)]) R); [|lia|done|].
  - apply list_bind_ext; [|done]. intros l'.
    by rewrite (cons_middle _ pre), app_assoc.
  - intros l' r' Hl' [Hr'| ->%list_elem_of_singleton]%elem_of_app.
    + apply Hpre; [by right|done].
    + simpl. intros Heq. apply Hl. rewrite Heq.
      by apply list_elem_of_fmap_2.
Qed.

Lemma join_rows_unique rename cols (L R : list Row) :
  length L = length R →
  NoDup (label <$> L) →
  Pandas.join_rows rename cols L (relabel L R) =
    zip_with (Pandas.joined_row rename) L R.
Proof.
  intros Hlen Hnd. unfold Pandas.join_rows.
  apply (join_rows_unique_aux rename cols [] L R); [done..|].
  by intros ? ? _ ?%elem_of_nil.
Qed.

Lemma zip_with_joined_row_relabel rename (L R : list Row) :
  zip_with (Pandas.joined_row rename) L (relabel L R) =
    zip_with (Pandas.joined_row rename) L R.
Proof.
  unfold relabel. revert R. induction L as [|l L IH]; intros [|r R];
    simpl; try done.
  by rewrite IH.
Qed.

Lemma unique_labels_join rename cols (L R : list Row) :
  length L = length R → NoDup (label <$> L) →
  Pandas.join_rows rename cols L
    (zip_with (λ t r, mkRow t (fields r)) (label <$> L) R) =
    zip_with (Pandas.joined_row rename) L
      (zip_with (λ t r, mkRow t (fields r)) (label <$> L) R).
Proof.
  intros Hlen Hnd. fold (relabel L R).
  rewrite zip_with_joined_row_relabel. by apply join_rows_unique.
Qed.

Lemma NoDup_fmap_mask_select {A B} (f : A → B) mask (l : list A) :
  NoDup (f <$> l) → NoDup (f <$> Pandas.mask_select mask l).
Proof.
  intros Hnd. apply (sublist_NoDup _ (f <$> l)); [done|].
  apply fmap_sublist, mask_select_sublist.
Qed.

(** C2: the anchor mask is the current-match mask read one position later,
    its last entry is false, both masks select the same number of rows, and
    lines 76-78 of [match_station_with_modis] give the k-th current row the
    row just before it in the input as its anchor, under the label of the
    current row.  When the timestamps increase strictly the anchor is
    strictly earlier, and the join on the index pairs the k-th current row
    with the k-th anchor and with no other. *)
Theorem previous_anchor_is_predecessor (offset : list float) (df : DataFrame) :
  length (rows df) = length offset →
  let masks := get_matching_and_prev offset in
  (∀ i, S i < length offset → masks.2 !! i = masks.1 !! S i)
  ∧ (∀ i, S i = length offset → masks.2 !! i = Some false)
  ∧ length (filter (λ b, b = true) masks.1) =
      length (filter (λ b, b = true) masks.2)
  ∧ ∃ df_t1 df_t0,
      Pandas.loc masks.1 df = Ok df_t1
      ∧ Pandas.loc masks.2 df ≫= Pandas.set_index (Pandas.index df_t1) = Ok df_t0
      ∧ length (rows df_t1) = length (rows df_t0)
      ∧ (∀ k cur, rows df_t1 !! k = Some cur →
          ∃ i anc, rows df !! i = Some anc ∧ rows df !! S i = Some cur
            ∧ masks.1 !! S i = Some true
            ∧ rows df_t0 !! k = Some (mkRow (label cur) (fields anc))
            ∧ (strictly_increasing df → (label anc < label cur)%Z))
      ∧ (strictly_increasing df → ∀ rename cols,
           Pandas.join_rows rename cols (rows df_t1) (rows df_t0) =
             zip_with (Pandas.joined_row rename) (rows df_t1) (rows df_t0)).
Proof.
  intros Hlen masks.
  assert (∀ i, S i < length offset → masks.2 !! i = masks.1 !! S i) as Hshift.
  { intros i Hi. unfold masks.
    rewrite lookup_is_current_match, lookup_is_previous_anchor.
    rewrite !decide_True by lia. by rewrite is_current_match_succ. }
  assert (length masks.1 = length (rows df)) as H1
    by (unfold masks; by rewrite length_is_current_match).
  assert (length masks.2 = length (rows df)) as H2
    by (unfold masks; by rewrite length_is_previous_anchor).
  split; [done|]. split.
  { intros i Hi. unfold masks. rewrite lookup_is_previous_anchor.
    rewrite decide_True by lia. by rewrite is_previous_anchor_last by lia. }
  split.
  { unfold masks. destruct (decide (offset = [])) as [->|Hne].
    { by rewrite get_matching_and_prev_nil. }
    rewrite get_matching_and_prev_shape by done. cbn [fst snd].
    rewrite filter_cons_False by done.
    rewrite filter_app, (filter_cons_False _ false) by done.
    by rewrite filter_nil, app_nil_r. }
  unfold Pandas.loc. rewrite !decide_True by done.
  eexists _, _. split; [done|]. cbn [mbind result_bind].
  unfold Pandas.set_index, Pandas.index. cbn [rows columns].
  pose proof (selections_same_length offset df Hlen) as Hsame.
  fold masks in Hsame.
  rewrite decide_True by (by rewrite length_fmap).
  split; [done|]. cbn [rows]. split.
  { rewrite length_zip_with, length_fmap. lia. }
  split; [|intros Hinc rename cols; apply unique_labels_join; try done;
           by apply NoDup_fmap_mask_select, increasing_NoDup].
  intros k cur Hcur.
  destruct (lookup_lt_is_Some_2 (Pandas.mask_select masks.2 (rows df)) k)
    as [anc Hanc].
  { rewrite <-Hsame. by eapply lookup_lt_Some. }
  destruct (pairing_selected offset df Hlen k cur anc Hcur Hanc)
    as (i & Ha & Hc & _ & Hm).
  exists i, anc. repeat split; [done..| |].
  - apply lookup_zip_with_Some. exists (label cur), anc.
    by rewrite list_lookup_fmap, Hcur.
  - intros Hinc. unfold strictly_increasing, Pandas.index in Hinc.
    eapply (increasing_lookup _ i (S i)); [done| | |lia];
      rewrite list_lookup_fmap; [by rewrite Ha | by rewrite Hc].
Qed.

Lemma previous_anchor_is_predecessor_witness :
  length (rows Sample.group) = length Sample.offsets
  ∧ length (filter (λ b, b = true) (get_matching_and_prev Sample.offsets).1) =
      length (filter (λ b, b = true) (get_matching_and_prev Sample.offsets).2).
Proof.
  split; [reflexivity|].
  apply (previous_anchor_is_predecessor Sample.offsets Sample.group).
  reflexivity.
Defined.

(** ** The tolerance tests on nanosecond offsets *)

Lemma within_hours_iff (d : Z) (k : Z) :
  Float.le (Float.abs (Fin (d # 3600000000000))) (inject_Z k) = true
  ↔ (Z.abs d ≤ k * ns_per_hour)%Z.
Proof.
  simpl. rewrite Qle_bool_iff. unfold Qle, inject_Z, ns_per_hour. simpl.
  lia.
Qed.

(** ** A current row joined with its anchor *)

Lemma notna_fields_other name (fs : list (string * cell)) :
  name ∉ fs.*1 →
  forallb (λ kc, negb (bool_decide (kc.1 = name) && isna kc.2)) fs = true.
Proof.
  induction fs as [|[k c] fs IH]; simpl; [done|].
  intros [Hk Hfs]%not_elem_of_cons.
  rewrite bool_decide_eq_false_2 by done. simpl. by apply IH.
Qed.

Lemma plain_not_generated cols name :
  Forall (λ c, c ∉ generated_names) cols → name ∈ generated_names →
  name ∉ cols.
Proof.
  rewrite Forall_forall. intros Hplain Hname Hin. by apply (Hplain name).
Qed.

Lemma attach_columns_plain cols :
  Forall (λ c, c ∉ generated_names) cols →
  attach_columns cols = cols ++ ["modis_LST"; "modis_time"].
Proof.
  intros Hplain. unfold attach_columns, Pandas.add_column.
  rewrite (decide_False (P := "modis_LST" ∈ cols)).
  2:{ apply plain_not_generated; [done|]. compute_done. }
  rewrite decide_False; [by rewrite <-app_assoc|].
  rewrite elem_of_app, list_elem_of_singleton. intros [Hin|?]; [|done].
  revert Hin. apply plain_not_generated; [done|]. compute_done.
Qed.

Section paired_row_facts.
Variable da_modis_sel : Key → GridSample.
Variable cols : list string.
Hypothesis Hplain : Forall (λ c, c ∉ generated_names) cols.

Let suffix (k : string) : string := k +:+ "_tm1".

Lemma annotated_attach_row r :
  attach_row cols r (grid_match da_modis_sel r) = annotated da_modis_sel r.
Proof.
  unfold annotated.
  rewrite <-(attach_row_plain cols r (grid_match da_modis_sel r)).
  - done.
  - apply plain_not_generated; [done|]. compute_done.
  - apply plain_not_generated; [done|]. compute_done.
Qed.

Lemma fst_annotated r :
  (fields r).*1 = cols →
  (fields (annotated da_modis_sel r)).*1 = attach_columns cols.
Proof.
  intros Hr. rewrite attach_columns_plain by done.
  unfold annotated. simpl. by rewrite fmap_app, Hr.
Qed.

Lemma right_fields_suffixed r :
  (fields r).*1 = cols →
  prod_map (tm1 (attach_columns cols)) id <$> fields (annotated da_modis_sel r)
  = prod_map suffix id <$> fields (annotated da_modis_sel r).
Proof.
  intros Hr. apply list_fmap_ext. intros i [k c] Hi.
  unfold prod_map. simpl. f_equal. apply tm1_overlap.
  rewrite <-(fst_annotated r Hr).
  apply list_elem_of_fmap. exists (k, c). split; [done|].
  by eapply list_elem_of_lookup_2.
Qed.

Variables cur anc : Row.
Hypothesis Hcur : (fields cur).*1 = cols.
Hypothesis Hanc : (fields anc).*1 = cols.

Lemma notna_joined_row :
  Pandas.notna_in "modis_LST"
    (Pandas.joined_row (tm1 (attach_columns cols))
       (annotated da_modis_sel cur) (annotated da_modis_sel anc)) =
    negb (isna (sample_value (grid_match da_modis_sel cur))).
Proof.
  unfold Pandas.notna_in, Pandas.joined_row. cbn [fields].
  rewrite right_fields_suffixed by done.
  rewrite forallb_app. unfold annotated at 1. cbn [fields].
  rewrite forallb_app. rewrite notna_fields_other.
  2:{ rewrite Hcur. apply plain_not_generated; [done|]. compute_done. }
  rewrite (notna_fields_other _ (prod_map suffix id <$> _)).
  2:{ rewrite <-list_fmap_compose.
      intros (kc & Heq & _)%list_elem_of_fmap. simpl in Heq.
      by apply eq_sym, suffixed_ne_modis_LST in Heq. }
  simpl. by rewrite !andb_true_r.
Qed.

Lemma drop_fields_joined_row :
  Pandas.drop_fields dropped_columns
    (Pandas.joined_row (tm1 (attach_columns cols))
       (annotated da_modis_sel cur) (annotated da_modis_sel anc)) =
    paired_record da_modis_sel cur anc.
Proof.
  unfold Pandas.drop_fields, Pandas.joined_row, paired_record.
  cbn [fields label]. f_equal.
  rewrite right_fields_suffixed by done.
  rewrite filter_app. f_equal.
  - apply filter_all, Forall_forall. intros [k c] Hin. simpl.
    assert (k ∈ attach_columns cols) as Hk.
    { rewrite <-(fst_annotated cur Hcur). by apply (list_elem_of_fmap_2 fst) in Hin. }
    rewrite attach_columns_plain in Hk by done.
    intros Hdrop.
    apply elem_of_app in Hk as [Hk|Hk].
    + revert Hk. apply plain_not_generated; [done|].
      unfold dropped_columns, generated_names in *.
      repeat (apply elem_of_cons in Hdrop as [->|Hdrop];
              [compute_done|]).
      by apply elem_of_nil in Hdrop.
    + unfold dropped_columns in Hdrop.
      repeat (apply elem_of_cons in Hk as [->|Hk];
              [revert Hdrop; compute_done|]).
      by apply elem_of_nil in Hk.
  - rewrite filter_fmap. unfold previous_fields. f_equal.
    unfold annotated. cbn [fields]. rewrite filter_app.
    rewrite (filter_none _ [_; _]).
    2:{ repeat constructor; simpl; intros H; apply H; compute_done. }
    rewrite app_nil_r. apply filter_ext_in, Forall_forall.
    intros [k c] Hin. simpl. fold (suffix k).
    unfold suffix. rewrite suffixed_dropped.
    assert (k ∈ cols) as Hk.
    { rewrite <-Hanc. by apply (list_elem_of_fmap_2 fst) in Hin. }
    assert (k ≠ "modis_time" ∧ k ≠ "modis_LST") as [H1 H2].
    { split; intros ->; revert Hk;
        (apply plain_not_generated; [done|]); compute_done. }
    rewrite !not_elem_of_cons. tauto.
Qed.
End paired_row_facts.

Lemma emitted_columns_plain cols :
  Forall (λ c, c ∉ generated_names) cols →
  emitted_columns (attach_columns cols) = paired_columns cols.
Proof.
  intros Hplain. unfold emitted_columns, paired_columns.
  rewrite attach_columns_plain by done.
  set (cols2 := cols ++ ["modis_LST"; "modis_time"]).
  rewrite (list_fmap_ext (tm1 cols2) (λ k, k +:+ "_tm1") cols2).
  2:{ intros i k Hk. apply tm1_overlap. by eapply list_elem_of_lookup_2. }
  rewrite filter_app, filter_fmap. unfold cols2.
  rewrite !filter_app. rewrite (filter_all _ cols).
  2:{ apply Forall_forall. intros k Hk Hdrop. revert Hk.
      apply plain_not_generated; [done|].
      unfold dropped_columns, generated_names in *.
      repeat (apply elem_of_cons in Hdrop as [->|Hdrop]; [compute_done|]).
      by apply elem_of_nil in Hdrop. }
  rewrite (filter_all _ [_; _]) by (repeat constructor; compute_done).
  rewrite (filter_none _ [_; _]).
  2:{ repeat constructor; simpl; intros H; apply H; compute_done. }
  rewrite app_nil_r, <-app_assoc. do 3 f_equal.
  apply filter_ext_in, Forall_forall. intros k Hk.
  rewrite suffixed_dropped.
  assert (k ≠ "modis_time" ∧ k ≠ "modis_LST") as [H1 H2].
  { split; intros ->; revert Hk;
      (apply plain_not_generated; [done|]); compute_done. }
  rewrite !not_elem_of_cons. tauto.
Qed.

Lemma paired_mask_rows (da_modis_sel : Key → GridSample) (rs : list Row) :
  paired_mask ((λ r, offset_hours r (grid_match da_modis_sel r)) <$> rs) =
    pair_selected da_modis_sel <$> zip (tail rs) rs.
Proof.
  set (f := λ r, offset_hours r (grid_match da_modis_sel r)).
  apply list_eq. intros i. unfold paired_mask.
  rewrite lookup_fmap_seq, length_fmap, list_lookup_fmap, lookup_zip_with,
    lookup_tail.
  case_decide as Hi.
  - destruct (lookup_lt_is_Some_2 rs (S i)) as [c Hc]; [lia|].
    destruct (lookup_lt_is_Some_2 rs i) as [a Ha]; [lia|].
    rewrite Hc, Ha. simpl. f_equal.
    unfold Steps.is_previous_anchor, Steps.anchor_within_bound,
      Steps.anchor_candidate, Steps.current, Steps.within.
    rewrite length_fmap, decide_True by lia.
    rewrite !list_lookup_fmap, Hc, Ha. simpl.
    unfold pair_selected, f. simpl.
    match goal with
    | |- ?b && (?b && _) = _ => by destruct b
    end.
  - rewrite (lookup_ge_None_2 rs (S i)) by lia. done.
Qed.

Lemma within_tolerance_iff (r : Row) (m : GridSample) (k : Z) :
  Float.le (Float.abs (offset_hours r m)) (inject_Z k) = true
  ↔ (Z.abs (label r - sample_time m) ≤ k * ns_per_hour)%Z.
Proof. apply within_hours_iff. Qed.

Lemma pair_selected_iff da_modis_sel cur anc :
  pair_selected da_modis_sel (cur, anc) = true
  ↔ (Z.abs (offset_ns da_modis_sel cur) ≤ ns_per_hour)%Z
    ∧ (Z.abs (offset_ns da_modis_sel anc) ≤ 4 * ns_per_hour)%Z.
Proof.
  unfold pair_selected. rewrite andb_true_iff. cbn [fst snd].
  change 1%Q with (inject_Z 1). change 4%Q with (inject_Z 4).
  rewrite !within_tolerance_iff. unfold offset_ns. by rewrite Z.mul_1_l.
Qed.

Lemma elem_of_consecutive {A} (l : list A) (p : A * A) :
  p ∈ zip (tail l) l → p.1 ∈ l ∧ p.2 ∈ l.
Proof.
  destruct p as [c a]. intros Hp. split.
  - apply elem_of_zip_l in Hp. destruct l; [done|]. by right.
  - by apply elem_of_zip_r in Hp.
Qed.

(** ** The matchup on a station group with increasing timestamps *)
Section paired_table_facts.
Variable da_modis_sel : Key → GridSample.
Variable df : DataFrame.
Hypothesis Hschema : station_schema df.
Hypothesis Hwf : well_formed df.
Hypothesis Hplain : plain_columns df.
Hypothesis Hinc : strictly_increasing df.

Lemma matched_increasing :
  da_modis_sel <$> Pandas.sort_index (key_of <$> rows df) =
    grid_match da_modis_sel <$> rows df.
Proof.
  rewrite sort_index_increasing by done.
  by rewrite <-list_fmap_compose.
Qed.

Lemma annotated_increasing :
  zip_with (attach_row (columns df)) (rows df)
    (grid_match da_modis_sel <$> rows df) =
    annotated da_modis_sel <$> rows df.
Proof.
  rewrite zip_with_fmap_r, zip_with_diag.
  apply list_fmap_ext. intros i r _. by apply annotated_attach_row.
Qed.

Lemma offsets_increasing :
  zip_with offset_hours (rows df) (grid_match da_modis_sel <$> rows df) =
    (λ r, offset_hours r (grid_match da_modis_sel r)) <$> rows df.
Proof. by rewrite zip_with_fmap_r, zip_with_diag. Qed.

Lemma row_columns r : r ∈ rows df → (fields r).*1 = columns df.
Proof.
  unfold well_formed in Hwf. rewrite Forall_forall in Hwf. apply Hwf.
Qed.

Lemma match_station_with_modis_paired_table :
  match_station_with_modis da_modis_sel df = Ok (paired_table da_modis_sel df).
Proof.
  rewrite match_station_with_modis_normal_form by done.
  pose proof (masks_same_count da_modis_sel df) as Hsame.
  revert Hsame.
  rewrite matched_increasing, annotated_increasing, offsets_increasing.
  intros Hsame. unfold paired_table. do 2 f_equal.
  { by apply emitted_columns_plain. }
  unfold emitted_rows. rewrite join_rows_unique; [|done|].
  2:{ apply (sublist_NoDup _ (label <$> (annotated da_modis_sel <$> rows df))).
      - rewrite <-list_fmap_compose. by apply increasing_NoDup.
      - apply fmap_sublist, mask_select_sublist. }
  rewrite zip_with_zip.
  destruct (rows df) as [|r0 rs] eqn:Hrows.
  { rewrite fmap_nil, get_matching_and_prev_nil. done. }
  rewrite <-Hrows in *.
  assert (rows df ≠ []) as Hne by (by rewrite Hrows).
  rewrite get_matching_and_prev_shape.
  2:{ rewrite Hrows. done. }
  cbn [fst snd]. rewrite paired_selection.
  2:{ unfold paired_mask. rewrite !length_fmap, length_seq, Hrows. done. }
  rewrite paired_mask_rows, <-fmap_tail, zip_fmap, mask_select_fmap_filter.
  rewrite <-list_fmap_compose, filter_fmap, <-list_fmap_compose.
  rewrite list_filter_filter.
  rewrite (filter_ext_in _ (λ p, is_pair da_modis_sel p.1 p.2)).
  2:{ apply Forall_forall. intros [cur anc] [Hc Ha]%elem_of_consecutive.
      simpl in Hc, Ha. simpl.
      rewrite notna_joined_row by (done || by apply row_columns).
      rewrite pair_selected_iff. unfold is_pair.
      destruct (isna _); simpl; intuition congruence. }
  apply list_fmap_ext. intros i [cur anc] Hi.
  apply list_elem_of_lookup_2, list_elem_of_filter in Hi as [_ Hi].
  apply elem_of_consecutive in Hi as [Hc Ha]. simpl in Hc, Ha. simpl.
  apply drop_fields_joined_row; done || by apply row_columns.
Qed.
End paired_table_facts.

Lemma lookup_consecutive {A} (l : list A) i (c a : A) :
  zip (tail l) l !! i = Some (c, a) ↔ l !! S i = Some c ∧ l !! i = Some a.
Proof.
  rewrite lookup_zip_with_Some. setoid_rewrite lookup_tail. split.
  - by intros (? & ? & [= <- <-] & ? & ?).
  - intros [? ?]. by exists c, a.
Qed.

Lemma elem_of_paired_table da_modis_sel df rec :
  rec ∈ rows (paired_table da_modis_sel df) ↔
  ∃ i cur anc, rows df !! S i = Some cur ∧ rows df !! i = Some anc
    ∧ is_pair da_modis_sel cur anc ∧ rec = paired_record da_modis_sel cur anc.
Proof.
  unfold paired_table. cbn [rows]. rewrite list_elem_of_fmap. split.
  - intros ([cur anc] & -> & [Hp Hin]%list_elem_of_filter).
    apply list_elem_of_lookup in Hin as [i Hi].
    apply lookup_consecutive in Hi as [? ?]. by exists i, cur, anc.
  - intros (i & cur & anc & Hc & Ha & Hp & ->).
    exists (cur, anc). split; [done|]. apply list_elem_of_filter.
    split; [done|]. apply list_elem_of_lookup. exists i.
    by apply lookup_consecutive.
Qed.

Lemma get_paired_record_time da_modis_sel cols cur anc :
  Forall (λ c, c ∉ generated_names) cols → (fields cur).*1 = cols →
  get "modis_time" (paired_record da_modis_sel cur anc) =
    Time (sample_time (grid_match da_modis_sel cur)).
Proof.
  intros Hplain Hcur. unfold get, paired_record, annotated. cbn [fields].
  rewrite !field_app, field_None; [done|].
  rewrite Hcur. apply plain_not_generated; [done|]. compute_done.
Qed.

(** C3: on a station group with strictly increasing timestamps, every row
    of the result is the pair of a row [cur] of the group and the row [anc]
    just before it; its [modis_time] is within one hour of its own
    timestamp, and the offset of [anc] from its own grid match is within
    four hours. *)
Theorem emitted_pairs_are_within_tolerance
    (da_modis_sel : Key → GridSample) (df : DataFrame) :
  station_schema df → well_formed df → plain_columns df →
  strictly_increasing df →
  ∃ out, match_station_with_modis da_modis_sel df = Ok out
    ∧ ∀ rec, rec ∈ rows out →
        ∃ i cur anc matched_time,
          rows df !! S i = Some cur ∧ rows df !! i = Some anc
          ∧ rec = paired_record da_modis_sel cur anc
          ∧ label rec = label cur
          ∧ get "modis_time" rec = Time matched_time
          ∧ (Z.abs (matched_time - label rec) ≤ ns_per_hour)%Z
          ∧ (Z.abs (label anc - sample_time (grid_match da_modis_sel anc))
             ≤ 4 * ns_per_hour)%Z.
Proof.
  intros Hschema Hwf Hplain Hinc. eexists. split.
  { by apply match_station_with_modis_paired_table. }
  intros rec (i & cur & anc & Hc & Ha & (H1 & H4 & _) & ->)%elem_of_paired_table.
  exists i, cur, anc, (sample_time (grid_match da_modis_sel cur)).
  repeat split; [done..| | |done].
  - apply (get_paired_record_time _ (columns df)); [done|].
    eapply row_columns; [done|]. by eapply list_elem_of_lookup_2.
  - simpl. unfold offset_ns in H1. lia.
Qed.

Lemma emitted_pairs_are_within_tolerance_witness :
  ∃ out, match_station_with_modis Sample.grid Sample.group = Ok out
    ∧ ∀ rec, rec ∈ rows out →
        ∃ i cur anc matched_time,
          rows Sample.group !! S i = Some cur
          ∧ rows Sample.group !! i = Some anc
          ∧ rec = paired_record Sample.grid cur anc
          ∧ label rec = label cur
          ∧ get "modis_time" rec = Time matched_time
          ∧ (Z.abs (matched_time - label rec) ≤ ns_per_hour)%Z
          ∧ (Z.abs (label anc - sample_time (grid_match Sample.grid anc))
             ≤ 4 * ns_per_hour)%Z.
Proof.
  apply (emitted_pairs_are_within_tolerance Sample.grid Sample.group).
  - unfold station_schema. compute_done.
  - unfold well_formed. compute_done.
  - unfold plain_columns. compute_done.
  - unfold strictly_increasing. compute_done.
Defined.

(** C6: on a station group with strictly increasing timestamps,
    [create_modis_selection] returns one key per observation, no more and
    no fewer, the k-th key being the one of the k-th observation; the
    values and times that the matcher then attaches by position are those
    of each row's own key. *)
Theorem selection_is_index_aligned (df : DataFrame) :
  station_schema df → strictly_increasing df →
  create_modis_selection df "datetime" "latitude" "longitude" =
    Ok (key_of <$> rows df)
  ∧ ∀ da_modis_sel : Key → GridSample, well_formed df →
      ∃ df_station,
        attach_modis (da_modis_sel <$> (key_of <$> rows df)) df = Ok df_station
        ∧ length (rows df_station) = length (rows df)
        ∧ ∀ i r, rows df !! i = Some r →
            ∃ r2, rows df_station !! i = Some r2
              ∧ label r2 = label r
              ∧ get "modis_LST" r2 = sample_value (da_modis_sel (key_of r))
              ∧ get "modis_time" r2 =
                  Time (sample_time (da_modis_sel (key_of r))).
Proof.
  intros Hschema Hinc. split.
  { rewrite create_modis_selection_ok by done.
    by rewrite sort_index_increasing. }
  intros da Hwf. eexists. split.
  { apply attach_modis_ok. by rewrite !length_fmap. }
  cbn [rows]. split.
  { rewrite length_zip_with, !length_fmap. lia. }
  intros i r Hr. eexists. split.
  { apply lookup_zip_with_Some. eexists _, _. split; [done|]. split; [done|].
    by rewrite !list_lookup_fmap, Hr. }
  assert ((fields r).*1 = columns df) as Hcols.
  { eapply row_columns; [done|]. by eapply list_elem_of_lookup_2. }
  split; [done|]. split.
  - by apply get_attach_row_value.
  - by apply get_attach_row_time.
Qed.

Lemma selection_is_index_aligned_witness :
  create_modis_selection Sample.group "datetime" "latitude" "longitude" =
    Ok (key_of <$> rows Sample.group).
Proof.
  apply (selection_is_index_aligned Sample.group).
  - unfold station_schema. compute_done.
  - unfold strictly_increasing. compute_done.
Defined.

Lemma index_paired_table_sublist da_modis_sel df :
  Pandas.index (paired_table da_modis_sel df) `sublist_of` Pandas.index df.
Proof.
  unfold Pandas.index, paired_table. cbn [rows].
  rewrite <-list_fmap_compose.
  rewrite (list_fmap_ext _ (label ∘ fst) _) by done.
  rewrite list_fmap_compose. apply fmap_sublist.
  transitivity ((zip (tail (rows df)) (rows df)).*1).
  { apply fmap_sublist, sublist_filter. }
  rewrite fst_zip.
  - destruct (rows df); [done|]. by apply sublist_cons.
  - destruct (rows df); simpl; lia.
Qed.

(** C8: on a station group with strictly increasing timestamps, the
    columns of the result are those of the station frame, then [modis_LST]
    and [modis_time], then the station columns other than the coordinates
    with the suffix; none of the four dropped labels is left.  Every row
    has the cells of its current row, the value and time matched for that
    row, and the suffixed cells of the row just before it; the index of
    the result is the index of the input with some timestamps left out, in
    the same order. *)
Theorem paired_record_layout
    (da_modis_sel : Key → GridSample) (df : DataFrame) :
  station_schema df → well_formed df → plain_columns df →
  strictly_increasing df →
  ∃ out, match_station_with_modis da_modis_sel df = Ok out
    ∧ columns out =
        columns df ++ ["modis_LST"; "modis_time"] ++
        ((λ k, k +:+ "_tm1") <$>
           filter (λ k, k ∉ ["latitude"; "longitude"]) (columns df))
    ∧ Forall (λ c, c ∉ columns out)
        ["modis_time_tm1"; "modis_LST_tm1"; "latitude_tm1"; "longitude_tm1"]
    ∧ (∀ rec, rec ∈ rows out →
         ∃ i cur anc,
           rows df !! S i = Some cur ∧ rows df !! i = Some anc
           ∧ label rec = label cur
           ∧ fields rec =
               fields cur ++
               [("modis_LST", sample_value (da_modis_sel (key_of cur)));
                ("modis_time", Time (sample_time (da_modis_sel (key_of cur))))] ++
               (prod_map (λ k, k +:+ "_tm1") id <$>
                  filter (λ kc, kc.1 ∉ ["latitude"; "longitude"]) (fields anc))
           ∧ (fields rec).*1 = columns out)
    ∧ Pandas.index out `sublist_of` Pandas.index df.
Proof.
  intros Hschema Hwf Hplain Hinc. eexists. split.
  { by apply match_station_with_modis_paired_table. }
  split; [done|]. split.
  { unfold paired_table. cbn [columns].
    rewrite <-emitted_columns_plain by done.
    apply Forall_forall. intros c Hc Hin.
    unfold emitted_columns in Hin. by apply list_elem_of_filter in Hin as [? _]. }
  split; [|apply index_paired_table_sublist].
  intros rec (i & cur & anc & Hc & Ha & _ & ->)%elem_of_paired_table.
  exists i, cur, anc. repeat split; [done..| |].
  - unfold paired_record, annotated, previous_fields. cbn [fields].
    by rewrite <-app_assoc.
  - unfold paired_record, annotated, previous_fields, paired_table,
      paired_columns. cbn [fields columns].
    rewrite !fmap_app, <-app_assoc.
    rewrite (row_columns df Hwf cur) by (by eapply list_elem_of_lookup_2).
    do 2 f_equal.
    rewrite <-(row_columns df Hwf anc) by (by eapply list_elem_of_lookup_2).
    rewrite <-list_fmap_compose, filter_fmap, <-list_fmap_compose.
    done.
Qed.

Lemma paired_record_layout_witness :
  ∃ out, match_station_with_modis Sample.grid Sample.group = Ok out
    ∧ columns out =
        ["latitude"; "longitude"; "temperature"; "modis_LST"; "modis_time";
         "temperature_tm1"].
Proof.
  destruct (paired_record_layout Sample.grid Sample.group)
    as (out & Hout & Hcols & _).
  - unfold station_schema. compute_done.
  - unfold well_formed. compute_done.
  - unfold plain_columns. compute_done.
  - unfold strictly_increasing. compute_done.
  - exists out. split; [exact Hout | exact Hcols].
Defined.

(** C9: the drop rule looks at the value matched for the current row
    only.  On a station group with strictly increasing timestamps, a row
    whose own offset is within one hour and whose matched value is defined
    is paired with the row before it as soon as the offset of that row from
    its own grid match is within four hours, whatever value the grid gave
    for that row and however far apart the two timestamps are; and every
    row of the result is such a pair. *)
Theorem anchor_is_bounded_by_its_own_offset
    (da_modis_sel : Key → GridSample) (df : DataFrame) :
  station_schema df → well_formed df → plain_columns df →
  strictly_increasing df →
  ∃ out, match_station_with_modis da_modis_sel df = Ok out
    ∧ (∀ i cur anc,
         rows df !! S i = Some cur → rows df !! i = Some anc →
         (Z.abs (label cur - sample_time (da_modis_sel (key_of cur)))
          ≤ ns_per_hour)%Z →
         isna (sample_value (da_modis_sel (key_of cur))) = false →
         (Z.abs (label anc - sample_time (da_modis_sel (key_of anc)))
          ≤ 4 * ns_per_hour)%Z →
         paired_record da_modis_sel cur anc ∈ rows out)
    ∧ (∀ rec, rec ∈ rows out →
         ∃ i cur anc,
           rows df !! S i = Some cur ∧ rows df !! i = Some anc
           ∧ rec = paired_record da_modis_sel cur anc
           ∧ (Z.abs (label cur - sample_time (da_modis_sel (key_of cur)))
              ≤ ns_per_hour)%Z
           ∧ isna (sample_value (da_modis_sel (key_of cur))) = false
           ∧ (Z.abs (label anc - sample_time (da_modis_sel (key_of anc)))
              ≤ 4 * ns_per_hour)%Z).
Proof.
  intros Hschema Hwf Hplain Hinc. eexists. split.
  { by apply match_station_with_modis_paired_table. }
  split.
  - intros i cur anc Hc Ha H1 Hv H4. apply elem_of_paired_table.
    by exists i, cur, anc.
  - intros rec (i & cur & anc & Hc & Ha & (H1 & H4 & Hv) & ->)%elem_of_paired_table.
    by exists i, cur, anc.
Qed.

Lemma anchor_is_bounded_by_its_own_offset_witness :
  isna (sample_value (Sample.grid (key_of (Sample.observation Sample.hour 11))))
    = true
  ∧ ∃ out, match_station_with_modis Sample.grid Sample.group = Ok out
      ∧ paired_record Sample.grid
          (Sample.observation (3 * Sample.hour) 12)
          (Sample.observation Sample.hour 11) ∈ rows out.
Proof.
  split; [reflexivity|].
  destruct (anchor_is_bounded_by_its_own_offset Sample.grid Sample.group)
    as (out & Hout & Hin & _).
  - unfold station_schema. compute_done.
  - unfold well_formed. compute_done.
  - unfold plain_columns. compute_done.
  - unfold strictly_increasing. compute_done.
  - exists out. split; [exact Hout|].
    apply (Hin 1); [reflexivity | reflexivity | | reflexivity |].
    + vm_compute. discriminate.
    + vm_compute. discriminate.
Defined.

(** * Further properties of the matchup *)

(** ** The selection of any station frame *)

Lemma cell_compare_antisym a b :
  Pandas.cell_compare b a = CompOpp (Pandas.cell_compare a b).
Proof.
  destruct a, b; simpl; try done.
  - by rewrite Qcompare_antisym.
  - apply String.compare_antisym.
  - apply Z.compare_antisym.
Qed.

Lemma key_compare_antisym a b :
  Pandas.key_compare b a = CompOpp (Pandas.key_compare a b).
Proof.
  unfold Pandas.key_compare.
  rewrite (cell_compare_antisym (key_time a)), (cell_compare_antisym (key_y a)),
    (cell_compare_antisym (key_x a)).
  destruct (Pandas.cell_compare (key_time a) _); simpl; try done.
  by destruct (Pandas.cell_compare (key_y a) _).
Qed.

Lemma key_leb_total a b : Pandas.key_leb a b = false → key_le b a.
Proof.
  unfold key_le, Pandas.key_leb. rewrite (key_compare_antisym a b).
  by destruct (Pandas.key_compare a b).
Qed.

Lemma insert_HdRel k h l :
  key_le h k → HdRel key_le h l → HdRel key_le h (Pandas.insert k l).
Proof.
  intros Hhk Hhl. destruct l as [|x l]; simpl; [by constructor|].
  destruct (Pandas.key_leb k x); constructor; [done|].
  by apply HdRel_inv in Hhl.
Qed.

Lemma insert_Sorted k l : Sorted key_le l → Sorted key_le (Pandas.insert k l).
Proof.
  induction 1 as [|h l Hl IH Hh]; simpl; [by repeat constructor|].
  destruct (Pandas.key_leb k h) eqn:Hk.
  - constructor; [by constructor|]. by constructor.
  - constructor; [done|]. apply insert_HdRel; [|done].
    by apply key_leb_total.
Qed.

Lemma sort_index_Sorted l : Sorted key_le (Pandas.sort_index l).
Proof.
  unfold Pandas.sort_index. induction l as [|k l IH]; simpl; [constructor|].
  by apply insert_Sorted.
Qed.

Lemma insert_key_of r (rs : list Row) :
  ∃ rs', rs' ≡ₚ r :: rs
    ∧ Pandas.insert (key_of r) (key_of <$> rs) = key_of <$> rs'.
Proof.
  induction rs as [|x rs (rs' & Hperm & Heq)]; [by exists [r]|].
  rewrite fmap_cons. cbn [Pandas.insert].
  destruct (Pandas.key_leb (key_of r) (key_of x)).
  - by exists (r :: x :: rs).
  - exists (x :: rs'). split.
    + rewrite Hperm. apply Permutation_swap.
    + by rewrite Heq.
Qed.

Lemma sort_index_key_of (rs : list Row) :
  ∃ rs', rs' ≡ₚ rs ∧ Pandas.sort_index (key_of <$> rs) = key_of <$> rs'.
Proof.
  unfold Pandas.sort_index.
  induction rs as [|r rs (rs' & Hperm & Heq)]; [by exists []|].
  rewrite fmap_cons. cbn [foldr]. rewrite Heq.
  destruct (insert_key_of r rs') as (rs'' & Hperm' & Heq').
  exists rs''. split; [|done]. by rewrite Hperm', Hperm.
Qed.

Lemma key_le_label a b : key_le (key_of a) (key_of b) → (label a ≤ label b)%Z.
Proof.
  unfold key_le, Pandas.key_leb, Pandas.key_compare. simpl.
  destruct (label a ?= label b)%Z eqn:Hc; intros Hle; try done.
  - apply Z.compare_eq in Hc. lia.
  - apply Z.lt_le_incl. exact Hc.
Qed.

Lemma Sorted_key_of_labels (rs : list Row) :
  Sorted key_le (key_of <$> rs) → StronglySorted Z.le (label <$> rs).
Proof.
  intros Hs.
  apply (StronglySorted_fmap label (λ a b, (label a ≤ label b)%Z)); [done|].
  apply Sorted_StronglySorted; [intros a b c; lia|].
  induction rs as [|r rs IH]; [constructor|].
  rewrite fmap_cons in Hs. apply Sorted_inv in Hs as [Hs Hh].
  constructor; [by apply IH|].
  destruct rs as [|x rs]; constructor.
  rewrite fmap_cons in Hh. apply HdRel_inv in Hh. by apply key_le_label.
Qed.

(** X1: on every station frame with the coordinate columns, whatever the
    order of its rows, the selection has one key per observation: it is the
    list of the keys of the observations rearranged so that each key is at
    most the next in the order (time, y, x); in particular the times
    never decrease along it. *)
Theorem selection_is_sorted_rearrangement (df : DataFrame) :
  station_schema df →
  ∃ keys rs,
    create_modis_selection df "datetime" "latitude" "longitude" = Ok keys
    ∧ rs ≡ₚ rows df
    ∧ keys = key_of <$> rs
    ∧ Sorted key_le keys
    ∧ StronglySorted Z.le (label <$> rs).
Proof.
  intros Hschema.
  destruct (sort_index_key_of (rows df)) as (rs & Hperm & Heq).
  exists (Pandas.sort_index (key_of <$> rows df)), rs.
  split; [by apply create_modis_selection_ok|].
  split; [done|]. split; [done|]. split; [apply sort_index_Sorted|].
  apply Sorted_key_of_labels. rewrite <-Heq. apply sort_index_Sorted.
Qed.

Lemma selection_is_sorted_rearrangement_witness :
  ∃ keys rs,
    create_modis_selection Sample.unsorted_group
      "datetime" "latitude" "longitude" = Ok keys
    ∧ rs ≡ₚ rows Sample.unsorted_group
    ∧ keys = key_of <$> rs
    ∧ Sorted key_le keys
    ∧ StronglySorted Z.le (label <$> rs).
Proof.
  apply (selection_is_sorted_rearrangement Sample.unsorted_group).
  unfold station_schema. compute_done.
Defined.

(** ** When the matchup raises *)

Lemma create_modis_selection_index_clash df time y x :
  "datetime" ∈ columns df →
  create_modis_selection df time y x =
    Raise (ValueError "cannot insert datetime, already exists").
Proof.
  intros Hin. unfold create_modis_selection, Pandas.reset_index,
    Pandas.index_name.
  by rewrite decide_True.
Qed.

Lemma create_modis_selection_missing df :
  "datetime" ∉ columns df →
  "latitude" ∉ columns df ∨ "longitude" ∉ columns df →
  ∃ key, create_modis_selection df "datetime" "latitude" "longitude" =
           Raise (KeyError key)
    ∧ key ∈ ["latitude"; "longitude"] ∧ key ∉ columns df.
Proof.
  intros Hdt Hmiss. unfold create_modis_selection, Pandas.reset_index,
    Pandas.index_name.
  rewrite decide_False by done. simpl.
  unfold Pandas.set_index_keys. cbn [columns].
  rewrite filter_cons_False by (intros H; apply H; left).
  destruct (decide ("latitude" ∈ columns df)) as [Hlat|Hlat].
  - destruct Hmiss as [?|Hlon]; [done|].
    rewrite filter_cons_False by (intros H; apply H; by right).
    rewrite filter_cons_True.
    2:{ intros [?|?]%elem_of_cons; done. }
    exists "longitude". split; [done|]. split; [|done]. compute_done.
  - rewrite filter_cons_True.
    2:{ intros [?|?]%elem_of_cons; done. }
    exists "latitude". split; [done|]. split; [|done]. compute_done.
Qed.



(** ** The masks of particular offset sequences *)

Lemma within_same_abs (offset offset' : list float) tol i :
  Forall2 (λ a b, Float.abs a = Float.abs b) offset offset' →
  Steps.within offset tol i = Steps.within offset' tol i.
Proof.
  intros Hall. unfold Steps.within.
  destruct (offset !! i) as [a|] eqn:Ha.
  - destruct (Forall2_lookup_l _ _ _ _ _ Hall Ha) as (b & -> & Hab).
    by rewrite Hab.
  - destruct (offset' !! i) as [b|] eqn:Hb; [|done].
    destruct (Forall2_lookup_r _ _ _ _ _ Hall Hb) as (a & Ha' & _).
    congruence.
Qed.

(** X3: the two masks depend on the offsets only through their absolute
    values: two offset sequences that agree up to the sign of each offset
    get the same masks. *)
Theorem masks_ignore_the_sign (offset offset' : list float) :
  Forall2 (λ a b, Float.abs a = Float.abs b) offset offset' →
  get_matching_and_prev offset = get_matching_and_prev offset'.
Proof.
  intros Hall. pose proof (Forall2_length _ _ _ Hall) as Hlen.
  rewrite (surjective_pairing (get_matching_and_prev offset)),
    (surjective_pairing (get_matching_and_prev offset')).
  f_equal; apply list_eq; intros i.
  - rewrite !lookup_is_current_match, Hlen. case_decide; [|done]. f_equal.
    unfold Steps.is_current_match, Steps.current_has_valid_anchor,
      Steps.anchor_within_bound, Steps.anchor_candidate, Steps.current.
    rewrite Hlen, (within_same_abs offset offset' 1 i) by done.
    destruct i as [|j]; [done|].
    by rewrite (within_same_abs offset offset' 1 (S j)),
      (within_same_abs offset offset' 4 j) by done.
  - rewrite !lookup_is_previous_anchor, Hlen. case_decide; [|done]. f_equal.
    unfold Steps.is_previous_anchor, Steps.anchor_within_bound,
      Steps.anchor_candidate, Steps.current.
    by rewrite Hlen, (within_same_abs offset offset' 1 (S i)),
      (within_same_abs offset offset' 4 i) by done.
Qed.

Lemma masks_ignore_the_sign_witness :
  get_matching_and_prev [Fin (-1); Fin 3; Fin (1 # 2)] =
    get_matching_and_prev [Fin 1; Fin (-3); Fin (-1 # 2)].
Proof.
  apply (masks_ignore_the_sign [Fin (-1); Fin 3; Fin (1 # 2)]
           [Fin 1; Fin (-3); Fin (-1 # 2)]).
  repeat constructor.
Defined.

Lemma within_match_is_within_lookback (x : float) :
  Float.le (Float.abs x) 1 = true → Float.le (Float.abs x) 4 = true.
Proof.
  destruct x as [| | |q]; simpl; try done.
  rewrite !Qle_bool_iff. intros Hq.
  apply (Qle_trans _ 1); [done|]. by apply Qle_bool_iff.
Qed.

(** X4: when every observation of a group is within one hour of its grid
    match, every row but the first is a current match and every row but
    the last is an anchor: the group gives one pair per consecutive pair
    of rows. *)
Theorem all_matches_pair_consecutively (offset : list float) :
  offset ≠ [] →
  Forall (λ x, Float.le (Float.abs x) 1 = true) offset →
  get_matching_and_prev offset =
    (false :: replicate (pred (length offset)) true,
     replicate (pred (length offset)) true ++ [false]).
Proof.
  intros Hne Hall. rewrite get_matching_and_prev_shape by done.
  assert (paired_mask offset = replicate (pred (length offset)) true) as ->;
    [|done].
  apply list_eq. intros i. unfold paired_mask. rewrite lookup_fmap_seq.
  case_decide as Hi.
  - rewrite lookup_replicate_2 by done. f_equal.
    unfold Steps.is_previous_anchor, Steps.anchor_within_bound,
      Steps.anchor_candidate, Steps.current, Steps.within.
    rewrite decide_True by lia.
    destruct (lookup_lt_is_Some_2 offset (S i)) as [c Hc]; [lia|].
    destruct (lookup_lt_is_Some_2 offset i) as [a Ha]; [lia|].
    rewrite Hc, Ha. rewrite Forall_forall in Hall.
    rewrite (Hall c) by (by eapply list_elem_of_lookup_2).
    rewrite within_match_is_within_lookback; [done|].
    apply Hall. by eapply list_elem_of_lookup_2.
  - apply eq_sym, lookup_replicate_None. lia.
Qed.

Lemma all_matches_pair_consecutively_witness :
  get_matching_and_prev Sample.offsets =
    ([false; true; true], [true; true; false]).
Proof.
  apply (all_matches_pair_consecutively Sample.offsets).
  - discriminate.
  - repeat constructor.
Defined.

(** ** The size and the index of the result *)

Lemma StronglySorted_sublist {A} (R : relation A) (l1 l2 : list A) :
  l1 `sublist_of` l2 → StronglySorted R l2 → StronglySorted R l1.
Proof.
  induction 1 as [|x l1 l2 Hsub IH|x l1 l2 Hsub IH];
    intros Hs; [done| |].
  - apply StronglySorted_inv in Hs as [Hs Hx]. constructor; [by apply IH|].
    rewrite Forall_forall in *. intros y Hy. apply Hx.
    by eapply sublist_subseteq.
  - apply StronglySorted_inv in Hs as [Hs _]. by apply IH.
Qed.

(** X5: on a station group with strictly increasing timestamps the result
    has fewer rows than the group, its timestamps increase strictly, and
    the first timestamp of the group is not among them. *)
Theorem result_is_shorter_and_increasing
    (da_modis_sel : Key → GridSample) (df : DataFrame) :
  station_schema df → well_formed df → plain_columns df →
  strictly_increasing df →
  ∃ out, match_station_with_modis da_modis_sel df = Ok out
    ∧ length (rows out) ≤ pred (length (rows df))
    ∧ strictly_increasing out
    ∧ ∀ t, head (Pandas.index df) = Some t → t ∉ Pandas.index out.
Proof.
  intros Hschema Hwf Hplain Hinc. eexists. split.
  { by apply match_station_with_modis_paired_table. }
  split; [|split].
  - unfold paired_table. cbn [rows]. rewrite length_fmap.
    etrans; [apply length_filter|].
    rewrite length_zip_with. destruct (rows df); simpl; lia.
  - unfold strictly_increasing.
    eapply StronglySorted_sublist; [apply index_paired_table_sublist|done].
  - intros t Ht Hin. unfold Pandas.index in Hin.
    apply list_elem_of_fmap in Hin as (rec & -> & Hrec).
    apply elem_of_paired_table in Hrec as (i & cur & anc & Hc & _ & _ & ->).
    cbn [paired_record label] in Ht.
    unfold strictly_increasing, Pandas.index in Hinc, Ht.
    assert ((label <$> rows df) !! 0 = Some (label cur)) as H0.
    { by destruct (label <$> rows df). }
    assert ((label <$> rows df) !! S i = Some (label cur)) as HS.
    { by rewrite list_lookup_fmap, Hc. }
    pose proof (increasing_lookup _ 0 (S i) _ _ Hinc H0 HS). lia.
Qed.

Lemma result_is_shorter_and_increasing_witness :
  ∃ out, match_station_with_modis Sample.grid Sample.group = Ok out
    ∧ length (rows out) ≤ 2
    ∧ strictly_increasing out
    ∧ ∀ t, head (Pandas.index Sample.group) = Some t → t ∉ Pandas.index out.
Proof.
  apply (result_is_shorter_and_increasing Sample.grid Sample.group).
  - unfold station_schema. compute_done.
  - unfold well_formed. compute_done.
  - unfold plain_columns. compute_done.
  - unfold strictly_increasing. compute_done.
Defined.

(** ** A grid without values *)

Lemma emitted_value_from_grid
    (da_modis_sel : Key → GridSample) (df : DataFrame) out rec :
  station_schema df → well_formed df →
  match_station_with_modis da_modis_sel df = Ok out →
  rec ∈ rows out →
  ∃ k, field "modis_LST" (fields rec) = Some (sample_value (da_modis_sel k))
    ∧ isna (sample_value (da_modis_sel k)) = false.
Proof.
  intros Hschema Hwf Hout Hrec.
  destruct (emitted_value_defined _ _ Hschema Hwf _ _ Hout Hrec)
    as (c & Hc & Hna).
  revert Hout Hrec. rewrite match_station_with_modis_normal_form by done.
  intros [= <-]. cbn [rows].
  intros (l & extra & Hl & _ & Hfs & _)%elem_of_emitted_rows.
  apply elem_of_mask_select, elem_of_attached in Hl as (r & m & Hr & Hm & ->).
  apply list_elem_of_fmap in Hm as (k & -> & _).
  assert ((fields r).*1 = columns df) as Hcols by (by eapply row_columns).
  pose proof (get_attach_row_value (columns df) r (da_modis_sel k) Hcols) as Hget.
  destruct (field_is_Some "modis_LST"
              (fields (attach_row (columns df) r (da_modis_sel k)))) as [c' Hc'].
  { rewrite fst_attach_row, elem_of_attach_columns by done. auto. }
  unfold get in Hget. rewrite Hc' in Hget. simpl in Hget. subst c'.
  rewrite Hfs, field_filter_keep, field_app, Hc' in Hc by compute_done.
  injection Hc as <-. exists k. split; [|done].
  by rewrite Hfs, field_filter_keep, field_app, Hc' by compute_done.
Qed.

(** X6: when the grid has no valid value at any point that is looked up, the
    matchup of every well-formed station frame is a table without rows, not
    an error: each candidate pair is removed for its missing [modis_LST]. *)
Theorem grid_without_values_gives_no_rows
    (da_modis_sel : Key → GridSample) (df : DataFrame) :
  station_schema df → well_formed df →
  (∀ k, isna (sample_value (da_modis_sel k)) = true) →
  ∃ out, match_station_with_modis da_modis_sel df = Ok out ∧ rows out = [].
Proof.
  intros Hschema Hwf Hnan. eexists. split.
  { by apply match_station_with_modis_normal_form. }
  match goal with |- ?l = [] => destruct l as [|rec l'] eqn:Hrows end;
    [done|exfalso].
  destruct (emitted_value_from_grid da_modis_sel df _ rec Hschema Hwf
              (match_station_with_modis_normal_form da_modis_sel df Hschema))
    as (k & _ & Hk).
  { rewrite Hrows. left. }
  by rewrite Hnan in Hk.
Qed.

Lemma grid_without_values_gives_no_rows_witness :
  ∃ out,
    match_station_with_modis (λ k, mkSample NA (Sample.hour)) Sample.group
      = Ok out
    ∧ rows out = [].
Proof.
  apply (grid_without_values_gives_no_rows
           (λ k, mkSample NA (Sample.hour)) Sample.group).
  - unfold station_schema. compute_done.
  - unfold well_formed. compute_done.
  - reflexivity.
Defined.

(** ** Excluding columns *)

Lemma starts_with_spec (p s : string) :
  starts_with p s = true ↔ ∃ t, s = p +:+ t.
Proof.
  revert s. induction p as [|a p IH]; intros s; simpl.
  - split; [by exists s|done].
  - destruct s as [|b s].
    + split; [done|by intros [t ?]].
    + rewrite andb_true_iff, Ascii.eqb_eq, IH. split.
      * intros [-> [t ->]]. by exists t.
      * intros [t [= -> ->]]. eauto.
Qed.

Lemma occurs_spec (col name : string) :
  occurs col name = true ↔
  ∃ p t, name = p +:+ col +:+ t ∧ count_char newline p = 0.
Proof.
  induction name as [|c name IH]; simpl.
  - rewrite orb_false_r, starts_with_spec. split.
    + intros [t Ht]. by exists "", t.
    + intros ([|a p] & t & Ht & _); [by exists t|done].
  - rewrite orb_true_iff, starts_with_spec, andb_true_iff, negb_true_iff, IH.
    split.
    + intros [[t Ht]|[Hc (p & t & -> & Hp)]].
      * by exists "", t.
      * exists (String c p), t. split; [done|]. simpl. by rewrite Hc.
    + intros ([|a p] & t & Ht & Hp).
      * left. by exists t.
      * right. simpl in Ht, Hp. injection Ht as <- ->.
        destruct (Ascii.eqb c newline); [done|]. split; [done|]. eauto.
Qed.

Lemma pattern_found_spec excl name :
  pattern_found excl name = true ↔ ∀ col, col ∈ excl → occurs col name = false.
Proof.
  unfold pattern_found. rewrite forallb_forall. split.
  - intros H col Hcol. apply list_elem_of_In, H in Hcol.
    by apply negb_true_iff.
  - intros H col Hcol. apply negb_true_iff, H. by apply list_elem_of_In.
Qed.

Lemma pattern_found_app a b name :
  pattern_found (a ++ b) name = pattern_found a name && pattern_found b name.
Proof. apply forallb_app. Qed.

Lemma field_filter_found excl name fs :
  pattern_found excl name = true →
  field name (filter (λ kc : string * cell, pattern_found excl kc.1 = true) fs)
    = field name fs.
Proof.
  intros Hname. induction fs as [|[k c] fs IH]; [done|].
  destruct (decide (pattern_found excl k = true)) as [Hk|Hk].
  - rewrite filter_cons_True by done. simpl. by rewrite IH.
  - rewrite filter_cons_False by done. simpl.
    rewrite decide_False by (by intros ->). done.
Qed.



Lemma filter_dataframe_ext df a b :
  (∀ name, pattern_found a name = pattern_found b name) →
  filter_dataframe df a = filter_dataframe df b.
Proof.
  intros Hab. unfold filter_dataframe. f_equal.
  - apply list_filter_iff. intros c. by rewrite Hab.
  - apply list_fmap_ext. intros i r _. f_equal.
    apply list_filter_iff. intros kc. by rewrite Hab.
Qed.

Lemma filter_dataframe_twice df a b :
  filter_dataframe (filter_dataframe df a) b = filter_dataframe df (a ++ b).
Proof.
  unfold filter_dataframe. cbn [columns rows]. f_equal.
  - rewrite list_filter_filter. apply list_filter_iff. intros c.
    rewrite pattern_found_app, andb_true_iff. tauto.
  - rewrite <-list_fmap_compose. apply list_fmap_ext. intros i r _.
    simpl. f_equal. rewrite list_filter_filter.
    apply list_filter_iff. intros kc.
    rewrite pattern_found_app, andb_true_iff. tauto.
Qed.


Lemma occurs_suffix (k col : string) :
  count_char newline k = 0 → occurs col (k +:+ col) = true.
Proof.
  intros Hk. apply occurs_spec. exists k, "". split; [|done].
  f_equal. induction col as [|a col IH]; [done|].
  change (String a col +:+ "") with (String a (col +:+ "")). by f_equal.
Qed.

Lemma found_without_tm1 (c : string) :
  occurs "_tm1" c = false → pattern_found ["_tm1"] c = true.
Proof. intros Hc. unfold pattern_found. simpl. by rewrite Hc. Qed.

Lemma not_found_suffixed (k : string) :
  count_char newline k = 0 → pattern_found ["_tm1"] (k +:+ "_tm1") ≠ true.
Proof.
  intros Hk. unfold pattern_found. simpl. by rewrite occurs_suffix.
Qed.

(** X9: excluding ["_tm1"] from the result of the matchup gives back the
    current observations with their grid sample: when no station column
    has [_tm1] (or a newline) in its name, the columns left are the station
    columns followed by [modis_LST] and [modis_time], and each row left is
    the current row of the pair it comes from, with its own matched value
    and time. *)
Theorem excluding_tm1_gives_current_rows
    (da_modis_sel : Key → GridSample) (df : DataFrame) :
  station_schema df → well_formed df → plain_columns df →
  strictly_increasing df →
  Forall (λ c, occurs "_tm1" c = false ∧ count_char newline c = 0)
    (columns df) →
  ∃ out, match_station_with_modis da_modis_sel df = Ok out
    ∧ columns (filter_dataframe out ["_tm1"]) =
        columns df ++ ["modis_LST"; "modis_time"]
    ∧ Forall2
        (λ kept rec, ∃ i cur anc,
           rows df !! S i = Some cur ∧ rows df !! i = Some anc
           ∧ rec = paired_record da_modis_sel cur anc
           ∧ kept = annotated da_modis_sel cur)
        (rows (filter_dataframe out ["_tm1"])) (rows out).
Proof.
  intros Hschema Hwf Hplain Hinc Hnames. eexists. split.
  { by apply match_station_with_modis_paired_table. }
  rewrite Forall_forall in Hnames. split.
  - unfold filter_dataframe, paired_table, paired_columns. cbn [columns].
    rewrite !filter_app. rewrite (filter_all _ (columns df)).
    2:{ apply Forall_forall. intros c Hc. apply found_without_tm1.
        by apply Hnames. }
    rewrite (filter_all _ [_; _]) by (repeat constructor; compute_done).
    rewrite filter_none; [by rewrite app_nil_r|].
    apply Forall_forall. intros c (k & -> & Hk)%list_elem_of_fmap.
    apply list_elem_of_filter in Hk as [_ Hk].
    apply not_found_suffixed. by apply Hnames.
  - unfold filter_dataframe at 1. cbn [rows].
    apply Forall2_fmap_l, Forall_Forall2_diag, Forall_forall.
    intros rec (i & cur & anc & Hc & Ha & _ & ->)%elem_of_paired_table.
    exists i, cur, anc. repeat split; [done..|].
    unfold paired_record, annotated. cbn [label fields]. f_equal.
    assert (∀ r, r ∈ rows df → ∀ kc, kc ∈ fields r →
              occurs "_tm1" kc.1 = false ∧ count_char newline kc.1 = 0)
      as Hfield.
    { intros r Hr kc Hkc. apply Hnames.
      rewrite <-(row_columns df Hwf r Hr). by apply list_elem_of_fmap_2. }
    rewrite !filter_app. rewrite (filter_all _ (fields cur)).
    2:{ apply Forall_forall. intros kc Hkc. apply found_without_tm1.
        eapply Hfield; [|done]. by eapply list_elem_of_lookup_2. }
    rewrite (filter_all _ [_; _]) by (repeat constructor; compute_done).
    rewrite filter_none; [by rewrite app_nil_r|].
    apply Forall_forall. unfold previous_fields.
    intros kc' (kc & -> & Hkc)%list_elem_of_fmap.
    apply list_elem_of_filter in Hkc as [_ Hkc]. simpl.
    apply not_found_suffixed.
    eapply Hfield; [|done]. by eapply list_elem_of_lookup_2.
Qed.

Lemma excluding_tm1_gives_current_rows_witness :
  ∃ out, match_station_with_modis Sample.grid Sample.group = Ok out
    ∧ columns (filter_dataframe out ["_tm1"]) =
        ["latitude"; "longitude"; "temperature"; "modis_LST"; "modis_time"].
Proof.
  destruct (excluding_tm1_gives_current_rows Sample.grid Sample.group)
    as (out & Hout & Hcols & _).
  - unfold station_schema. compute_done.
  - unfold well_formed. compute_done.
  - unfold plain_columns. compute_done.
  - unfold strictly_increasing. compute_done.
  - repeat constructor.
  - exists out. split; [exact Hout | exact Hcols].
Defined.

(** * The satellite grid *)

(** ** The format of the date range *)

Lemma count_char_app c (s t : string) :
  count_char c (s +:+ t) = count_char c s + count_char c t.
Proof.
  induction s as [|a s IH]; [done|].
  change (String a s +:+ t) with (String a (s +:+ t)). simpl.
  rewrite IH. lia.
Qed.

Lemma split_char_none c (s : string) :
  count_char c s = 0 → Modis.split_char c s = [s].
Proof.
  induction s as [|a s IH]; simpl; [done|].
  destruct (Ascii.eqb a c); [done|]. intros Hs. by rewrite IH.
Qed.

Lemma split_char_one c (s : string) :
  count_char c s = 1 →
  ∃ t0 t1, Modis.split_char c s = [t0; t1] ∧ s = t0 +:+ String c t1
    ∧ count_char c t0 = 0 ∧ count_char c t1 = 0.
Proof.
  induction s as [|a s IH]; simpl; [done|].
  destruct (Ascii.eqb a c) eqn:Hac.
  - intros Hs. apply Ascii.eqb_eq in Hac as ->.
    exists "", s. rewrite split_char_none by lia.
    repeat split; try done; lia.
  - intros (t0 & t1 & -> & -> & H0 & H1)%IH.
    exists (String a t0), t1. repeat split; [|done]. simpl.
    by rewrite Hac.
Qed.

Lemma split_char_at c (t0 t1 : string) :
  count_char c t0 = 0 → count_char c t1 = 0 →
  Modis.split_char c (t0 +:+ String c t1) = [t0; t1].
Proof.
  intros H0 H1. induction t0 as [|a t0 IH].
  - change ("" +:+ String c t1) with (String c t1). simpl.
    by rewrite Ascii.eqb_refl, split_char_none.
  - change (String a t0 +:+ String c t1) with (String a (t0 +:+ String c t1)).
    simpl in *. destruct (Ascii.eqb a c); [done|]. by rewrite IH.
Qed.

(** X10: a date range is accepted exactly when it is two parts around
    its only slash and [pd.to_datetime] takes both parts; the assertion on
    the number of slashes fails for every other count, whatever the parts
    are.  Nothing else is checked: neither the order of the two dates nor
    their layout. *)
Theorem datetime_format_accepted_iff
    (to_datetime : string → bool) (datetime : string) :
  (Modis.check_planetary_computer_datetime_format to_datetime datetime = inr ()
   ↔ ∃ t0 t1, datetime = t0 +:+ "/" +:+ t1
       ∧ count_char Modis.slash t0 = 0 ∧ count_char Modis.slash t1 = 0
       ∧ to_datetime t0 = true ∧ to_datetime t1 = true)
  ∧ ((∃ msg, Modis.check_planetary_computer_datetime_format to_datetime datetime
             = inl (Modis.AssertionError msg))
     ↔ count_char Modis.slash datetime ≠ 1).
Proof.
  unfold Modis.check_planetary_computer_datetime_format. split.
  - split.
    + case_decide as Hcount; [|done].
      destruct (split_char_one _ _ Hcount) as (t0 & t1 & -> & -> & H0 & H1).
      destruct (to_datetime t0) eqn:Hp0, (to_datetime t1) eqn:Hp1; try done.
      intros _. by exists t0, t1.
    + intros (t0 & t1 & -> & H0 & H1 & Hp0 & Hp1).
      change ("/" +:+ t1) with (String Modis.slash t1).
      rewrite decide_True.
      2:{ rewrite count_char_app. simpl. by rewrite H0, H1. }
      by rewrite split_char_at, Hp0, Hp1.
  - split.
    + intros [msg Hmsg]. case_decide as Hcount; [|done].
      destruct (Modis.split_char _ _) as [|? [|? [|? ?]]];
        try done; by destruct (_ && _).
    + intros Hcount. rewrite decide_False by done. eauto.
Qed.

Lemma datetime_format_accepted_iff_witness :
  Modis.check_planetary_computer_datetime_format
    (λ t, bool_decide (String.length t = 10)) "2020-01-01/2020-12-31" = inr ().
Proof.
  apply (datetime_format_accepted_iff
           (λ t, bool_decide (String.length t = 10)) "2020-01-01/2020-12-31").
  exists "2020-01-01", "2020-12-31". repeat split.
Defined.

(** ** Scenes with too many oblique pixels *)

Lemma float_lt_ratio bad good (r : Q) :
  Modis.float_lt (Modis.ratio bad good) r = true
  ↔ 0 < bad + good
    ∧ (Z.of_nat bad * QDen r < Qnum r * Z.of_nat (bad + good))%Z.
Proof.
  unfold Modis.ratio. destruct (bad + good) as [|n] eqn:Hn; simpl.
  - split; [done|]. intros [? _]. lia.
  - rewrite negb_true_iff, <-not_true_iff_false, Qle_bool_iff.
    unfold Qle. simpl. rewrite Zpos_P_of_succ_nat. split.
    + intros Hlt. split; [lia|]. lia.
    + intros [_ Hlt]. lia.
Qed.

Lemma count_true_all_false {A} (f : A → bool) (l : list A) :
  Forall (λ a, f a = false) l → Modis.count_true (f <$> l) = 0.
Proof.
  intros Hall. unfold Modis.count_true. rewrite filter_none; [done|].
  apply Forall_fmap. eapply Forall_impl; [done|]. simpl. congruence.
Qed.

Section view_angles.
Variable da : Modis.Stack.
Variable angle_band_name : string.
Variables zenith_angle_offset max_view_angle max_bad_angle_ratio : Q.

Let zenith_angle (s : Modis.Scene) : list float :=
  (λ a, Float.abs (Modis.float_add a zenith_angle_offset))
    <$> Modis.layer angle_band_name (Modis.layers s).
Let bad_angles (s : Modis.Scene) : nat :=
  Modis.count_true ((λ z, Modis.float_gt z max_view_angle) <$> zenith_angle s).
Let good_angles (s : Modis.Scene) : nat :=
  Modis.count_true ((λ z, Float.le z max_view_angle) <$> zenith_angle s).
Let acceptable (s : Modis.Scene) : Prop :=
  0 < bad_angles s + good_angles s
  ∧ (Z.of_nat (bad_angles s) * QDen max_bad_angle_ratio
     < Qnum max_bad_angle_ratio * Z.of_nat (bad_angles s + good_angles s))%Z.

End view_angles.

